(** * NCBI taxonomy tree: a shallow embedding of [ncbiTaxonomyTree.py]

    The Python class [NcbiTaxonomyTree] keeps one dictionary [self.dic] from
    taxid to a [Node(name, rank, parent, children)] record.  The constructor
    fills it from the lines of [names.dmp] and [nodes.dmp]; the query methods
    only read it.  Here the dictionary is a [gmap Z Node], a Python exception
    is a value of [exn] carried by the [result] monad, the [while] loop of the
    ascendant walk and the recursive descents take a step budget and answer
    [None] when the budget does not suffice.  The interpreter's own limits
    (recursion depth, memory) are not part of the model. *)

From Stdlib Require Import ZArith String Ascii List Lia.
From stdpp Require Import gmap list strings.

Open Scope Z_scope.

(** ** Exceptions and the result monad *)

(** The built-in exceptions the module can raise.  [KeyError] carries the
    missing key, [ValueError] the offending literal (for [int]) or the message
    (for [list.remove]); [IndexError] and [TypeError] carry nothing that
    depends on the input. *)
Inductive exn : Type :=
  | KeyError (key : Z)
  | IndexError
  | ValueError (arg : string)
  | TypeError.

Inductive result (A : Type) : Type :=
  | Ok (a : A)
  | Raise (e : exn).
Arguments Ok {A} a.
Arguments Raise {A} e.

#[global] Instance result_ret : MRet result := @Ok.
#[global] Instance result_bind : MBind result := fun A B k r =>
  match r with
  | Ok a => k a
  | Raise e => Raise e
  end.

(** [for x in xs: st = step(st, x)], stopping at the first exception. *)
Fixpoint for_each {S A : Type} (step : S -> A -> result S) (st : S) (xs : list A)
  : result S :=
  match xs with
  | [] => Ok st
  | x :: xs' => st' ← step st x; for_each step st' xs'
  end.

(** ** Python string and list primitives used by the parser *)

Definition tab : string := String (ascii_of_nat 9) EmptyString.

(** [s.split(sep)] for a one-character separator: never the empty list. *)
Fixpoint split (sep : ascii) (s : string) : list string :=
  match s with
  | EmptyString => [EmptyString]
  | String c r =>
      if Ascii.eqb c sep then EmptyString :: split sep r
      else match split sep r with
           | h :: t => String c h :: t
           | [] => [String c EmptyString]
           end
  end.

Fixpoint drop_last (s : string) : string :=
  match s with
  | EmptyString => EmptyString
  | String c EmptyString => EmptyString
  | String c r => String c (drop_last r)
  end.

(** [s[1:-1]]: the string without its first and last character. *)
Definition slice_1_m1 (s : string) : string :=
  match s with
  | EmptyString => EmptyString
  | String _ r => drop_last r
  end.

(** [l[i]] for a non-negative index. *)
Definition getitem_list {A : Type} (l : list A) (i : nat) : result A :=
  match nth_error l i with
  | Some x => Ok x
  | None => Raise IndexError
  end.

(** [d[k]] on a dictionary with integer keys. *)
Definition getitem {V : Type} (d : gmap Z V) (k : Z) : result V :=
  match d !! k with
  | Some v => Ok v
  | None => Raise (KeyError k)
  end.

Definition is_space (c : ascii) : bool :=
  let n := nat_of_ascii c in
  (Nat.eqb n 32 || (Nat.leb 9 n && Nat.leb n 13))%bool.

Definition is_digit (c : ascii) : bool :=
  let n := nat_of_ascii c in (Nat.leb 48 n && Nat.leb n 57)%bool.

Fixpoint lstrip (s : string) : string :=
  match s with
  | String c r => if is_space c then lstrip r else s
  | EmptyString => EmptyString
  end.

Fixpoint rstrip (s : string) : string :=
  match s with
  | EmptyString => EmptyString
  | String c r =>
      match rstrip r with
      | EmptyString => if is_space c then EmptyString else String c EmptyString
      | r' => String c r'
      end
  end.

Fixpoint digits_value (acc : Z) (s : string) : option Z :=
  match s with
  | EmptyString => Some acc
  | String c r =>
      if is_digit c
      then digits_value (10 * acc + (Z.of_nat (nat_of_ascii c) - 48)) r
      else None
  end.

Definition unsigned_literal (s : string) : option Z :=
  match s with
  | EmptyString => None
  | _ => digits_value 0 s
  end.

(** [int(s)] on a string: surrounding ASCII white space is ignored, then an
    optional sign and a non-empty run of decimal digits; anything else raises
    [ValueError] with the literal.  (Digit grouping with underscores and
    non-ASCII digits, which some interpreter versions accept, are outside the
    model and count as invalid.) *)
Definition py_int (s : string) : result Z :=
  let t := rstrip (lstrip s) in
  let v := match t with
           | String c r =>
               if Ascii.eqb c "-" then Z.opp <$> unsigned_literal r
               else if Ascii.eqb c "+" then unsigned_literal r
               else unsigned_literal t
           | EmptyString => None
           end in
  match v with
  | Some z => Ok z
  | None => Raise (ValueError s)
  end.

(** [l.remove(x)]: drops the first occurrence, [ValueError] when there is none. *)
Fixpoint list_remove (x : Z) (l : list Z) : result (list Z) :=
  match l with
  | [] => Raise (ValueError "list.remove(x): x not in list")
  | y :: l' =>
      if decide (y = x) then Ok l'
      else l'' ← list_remove x l'; Ok (y :: l'')
  end.

(** ** The data model *)

(** [namedtuple('Node', ['name', 'rank', 'parent', 'children'])]; [rank] and
    [parent] are [None] in a node that was only seen as somebody's parent. *)
Record Node : Type := mkNode {
  name : string;
  rank : option string;
  parent : option Z;
  children : list Z
}.

#[global] Instance Node_eq_dec : EqDecision Node.
Proof. solve_decision. Defined.

(** ** The constructor *)

(** One line of [names.dmp]. *)
Definition names_step (taxid2name : gmap Z string) (line : string)
  : result (gmap Z string) :=
  let line := split "|" line in
  label ← getitem_list line 3;
  if String.eqb label (tab +:+ "scientific name" +:+ tab) then
    f0 ← getitem_list line 0;
    taxid ← py_int f0;
    f1 ← getitem_list line 1;
    Ok (<[taxid := slice_1_m1 f1]> taxid2name)
  else Ok taxid2name.

(** The body of the loop over [nodes.dmp]: the state is [self.dic] together
    with what is left of [taxid2name]. *)
Definition nodes_step (st : gmap Z Node * gmap Z string) (line : string)
  : result (gmap Z Node * gmap Z string) :=
  let '(dic, taxid2name) := st in
  let line := take 3 (split "|" line) in
  f0 ← getitem_list line 0;
  taxid ← py_int f0;
  f1 ← getitem_list line 1;
  parent_taxid ← py_int f1;
  '(dic, taxid2name) ←
    match dic !! taxid with
    | Some n =>
        f2 ← getitem_list line 2;
        Ok (<[taxid := mkNode (name n) (Some (slice_1_m1 f2))
                              (Some parent_taxid) (children n)]> dic,
            taxid2name)
    | None =>
        nm ← getitem taxid2name taxid;
        f2 ← getitem_list line 2;
        Ok (<[taxid := mkNode nm (Some (slice_1_m1 f2))
                              (Some parent_taxid) []]> dic,
            delete taxid taxid2name)
    end;
  match dic !! parent_taxid with
  | Some p =>
      Ok (<[parent_taxid := mkNode (name p) (rank p) (parent p)
                                   (children p ++ [taxid])]> dic,
          taxid2name)
  | None =>
      nm ← getitem taxid2name parent_taxid;
      Ok (<[parent_taxid := mkNode nm None None [taxid]]> dic,
          delete parent_taxid taxid2name)
  end.

(** The lines after the loop: detach the root (taxid 1) from itself. *)
Definition finalize (dic : gmap Z Node) : result (gmap Z Node) :=
  root ← getitem dic 1;
  root_children ← list_remove 1 (children root);
  Ok (<[1 := mkNode (name root) (rank root) None root_children]> dic).

(** [NcbiTaxonomyTree(nodes_filename, names_filename)] called with both file
    names, on the lines of the two files; an exception leaves the caller
    without a tree. *)
Definition build (names_lines nodes_lines : list string) : result (gmap Z Node) :=
  taxid2name ← for_each names_step ∅ names_lines;
  '(dic, _) ← for_each nodes_step (∅, taxid2name) nodes_lines;
  finalize dic.

(** ** Point queries *)

(** [result = {}; for taxid in taxids: result[taxid] = f(taxid); return result] *)
Definition batch {V : Type} (f : Z -> result V) (taxids : list Z) : result (gmap Z V) :=
  for_each (fun result taxid => v ← f taxid; Ok (<[taxid := v]> result)) ∅ taxids.

Definition getParent (dic : gmap Z Node) (taxids : list Z) : result (gmap Z (option Z)) :=
  batch (fun taxid => n ← getitem dic taxid; Ok (parent n)) taxids.

Definition getRank (dic : gmap Z Node) (taxids : list Z) : result (gmap Z (option string)) :=
  batch (fun taxid => n ← getitem dic taxid; Ok (rank n)) taxids.

Definition getChildren (dic : gmap Z Node) (taxids : list Z) : result (gmap Z (list Z)) :=
  batch (fun taxid => n ← getitem dic taxid; Ok (children n)) taxids.

Definition getName (dic : gmap Z Node) (taxids : list Z) : result (gmap Z string) :=
  batch (fun taxid => n ← getitem dic taxid; Ok (name n)) taxids.

(** ** Computations that may not return *)

(** A loop or a recursion of the source runs here on a budget of steps:
    [None] says that the budget ran out before the call returned or raised. *)
Definition run (A : Type) : Type := option (result A).

Definition returns {A : Type} (a : A) : run A := Some (Ok a).
Definition raises {A : Type} (e : exn) : run A := Some (Raise e).
Definition lift {A : Type} (r : result A) : run A := Some r.

#[global] Instance run_bind : MBind run := fun A B k r =>
  match r with
  | Some (Ok a) => k a
  | Some (Raise e) => Some (Raise e)
  | None => None
  end.

(** [[f(x) for x in xs]], left to right. *)
Fixpoint run_map {A B : Type} (f : A -> run B) (xs : list A) : run (list B) :=
  match xs with
  | [] => returns []
  | x :: xs' => y ← f x; ys ← run_map f xs'; returns (y :: ys)
  end.

Fixpoint run_each {S A : Type} (step : S -> A -> run S) (st : S) (xs : list A) : run S :=
  match xs with
  | [] => returns st
  | x :: xs' => st' ← step st x; run_each step st' xs'
  end.

Definition run_batch {V : Type} (f : Z -> run V) (taxids : list Z) : run (gmap Z V) :=
  run_each (fun result taxid => v ← f taxid; returns (<[taxid := v]> result)) ∅ taxids.

(** ** Ascendants *)

(** The second namedtuple of the module, [Node(taxid, rank, name)]. *)
Module Lin.
Record Node : Type := mk {
  taxid : Z;
  rank : option string;
  name : string
}.
End Lin.

#[global] Instance LinNode_eq_dec : EqDecision Lin.Node.
Proof. solve_decision. Defined.

Definition standard_ranks : list string :=
  ["species"; "genus"; "family"; "order"; "class"; "phylum"; "superkingdom"].

(** [lvl.rank in self.standard_ranks]; a rank of [None] is in no list of strings. *)
Definition in_standard_ranks (r : option string) : bool :=
  match r with
  | Some s => bool_decide (s ∈ standard_ranks)
  | None => false
  end.

(** The [while self.dic[taxid].parent is not None] loop; one unit of budget
    per evaluation of the loop test. *)
Fixpoint ascend (fuel : nat) (dic : gmap Z Node) (taxid : Z) (lineage : list Lin.Node)
  : run (list Lin.Node) :=
  match fuel with
  | O => None
  | S fuel' =>
      n ← lift (getitem dic taxid);
      match parent n with
      | None => returns lineage
      | Some taxid' =>
          n' ← lift (getitem dic taxid');
          ascend fuel' dic taxid' (lineage ++ [Lin.mk taxid' (rank n') (name n')])
      end
  end.

Definition _getAscendantsWithRanksAndNames (fuel : nat) (dic : gmap Z Node)
    (taxid : Z) (only_std_ranks : bool) : run (list Lin.Node) :=
  n ← lift (getitem dic taxid);
  lineage ← ascend fuel dic taxid [Lin.mk taxid (rank n) (name n)];
  if only_std_ranks then
    let std_lineage := filter (fun lvl => in_standard_ranks (Lin.rank lvl) = true) lineage in
    first ← lift (getitem_list lineage 0);
    if decide (Lin.rank first = Some "no rank")
    then returns (first :: std_lineage)
    else returns std_lineage
  else returns lineage.

Definition getAscendantsWithRanksAndNames (fuel : nat) (dic : gmap Z Node)
    (taxids : list Z) (only_std_ranks : bool) : run (gmap Z (list Lin.Node)) :=
  run_batch (fun taxid => _getAscendantsWithRanksAndNames fuel dic taxid only_std_ranks)
            taxids.

(** ** Descendants and leaves *)

(** The values the recursive descents return: a bare taxid or a list of such
    values. *)
#[warnings="-register-all"] Inductive pyval : Type :=
  | PInt (z : Z)
  | PList (l : list pyval).

(** What one element [elt] of the argument adds to [flattened_list]: the
    elements of [flatten(elt)] when it is a list, [elt] itself otherwise. *)
Fixpoint flatten_elt (elt : pyval) : list Z :=
  match elt with
  | PInt z => [z]
  | PList l => concat (map flatten_elt l)
  end.

(** [flatten(seq)]: [for elt in seq] needs an iterable. *)
Definition flatten (seq : pyval) : result (list Z) :=
  match seq with
  | PInt _ => Raise TypeError
  | PList l => Ok (concat (map flatten_elt l))
  end.

Fixpoint _getDescendants (fuel : nat) (dic : gmap Z Node) (taxid : Z) : run pyval :=
  match fuel with
  | O => None
  | S fuel' =>
      n ← lift (getitem dic taxid);
      match children n with
      | [] => returns (PInt taxid)
      | _ :: _ =>
          result ← run_map (_getDescendants fuel' dic) (children n);
          returns (PList (PInt taxid :: result))
      end
  end.

Definition getDescendants (fuel : nat) (dic : gmap Z Node) (taxids : list Z)
  : run (gmap Z (list Z)) :=
  run_batch (fun taxid => v ← _getDescendants fuel dic taxid; lift (flatten v)) taxids.

(** [Node(taxid=descendant, rank=self.dic[descendant].rank, ...)]: the
    dictionary lookup needs a hashable key. *)
Definition describe (dic : gmap Z Node) (descendant : pyval) : result Lin.Node :=
  match descendant with
  | PInt d => n ← getitem dic d; Ok (Lin.mk d (rank n) (name n))
  | PList _ => Raise TypeError
  end.

Fixpoint result_map {A B : Type} (f : A -> result B) (xs : list A) : result (list B) :=
  match xs with
  | [] => Ok []
  | x :: xs' => y ← f x; ys ← result_map f xs'; Ok (y :: ys)
  end.

(** [[... for descendant in v]] *)
Definition describe_all (dic : gmap Z Node) (v : pyval) : result (list Lin.Node) :=
  match v with
  | PInt _ => Raise TypeError
  | PList l => result_map (describe dic) l
  end.

Definition getDescendantsWithRanksAndNames (fuel : nat) (dic : gmap Z Node)
    (taxids : list Z) : run (gmap Z (list Lin.Node)) :=
  run_batch (fun taxid => v ← _getDescendants fuel dic taxid; lift (describe_all dic v))
            taxids.

Fixpoint _getLeaves (fuel : nat) (dic : gmap Z Node) (taxid : Z) : run pyval :=
  match fuel with
  | O => None
  | S fuel' =>
      n ← lift (getitem dic taxid);
      match children n with
      | [] => returns (PInt taxid)
      | _ :: _ =>
          result ← run_map (_getLeaves fuel' dic) (children n);
          returns (PList result)
      end
  end.

Definition getLeaves (fuel : nat) (dic : gmap Z Node) (taxid : Z) : run (list Z) :=
  result ← _getLeaves fuel dic taxid;
  match result with
  | PInt z => returns [z]
  | PList _ => lift (flatten result)
  end.

(** ** The example of the specification *)

(** Lines in the layout of the two dump files. *)
Definition name_line (taxid : string) (nm : string) : string :=
  taxid +:+ tab +:+ "|" +:+ tab +:+ nm +:+ tab +:+ "|" +:+ tab +:+ tab +:+ "|" +:+ tab
        +:+ "scientific name" +:+ tab +:+ "|".
Definition node_line (taxid parent_taxid rk : string) : string :=
  taxid +:+ tab +:+ "|" +:+ tab +:+ parent_taxid +:+ tab +:+ "|" +:+ tab +:+ rk +:+ tab +:+ "|".

Definition ex_names : list string :=
  [ name_line "1" "root"; name_line "543" "Enterobacteriaceae";
    name_line "561" "Escherichia"; name_line "562" "Escherichia coli" ].

Definition l1 := node_line "1" "1" "no rank".
Definition l543 := node_line "543" "1" "family".
Definition l561 := node_line "561" "543" "genus".
Definition l562 := node_line "562" "561" "species".

(** The tree of the example, written out. *)
Definition ex_tree : gmap Z Node :=
  list_to_map
    [ (1, mkNode "root" (Some "no rank") None [543]);
      (543, mkNode "Enterobacteriaceae" (Some "family") (Some 1) [561]);
      (561, mkNode "Escherichia" (Some "genus") (Some 543) [562]);
      (562, mkNode "Escherichia coli" (Some "species") (Some 561) []) ].

(** ** Edge records *)

(** The record a line of [nodes.dmp] stands for: the three values the loop
    body reads off it. *)
Record edge : Type := mkEdge {
  e_id : Z;
  e_parent : Z;
  e_rank : string
}.

Definition parse_edge (line : string) : option edge :=
  match take 3 (split "|" line) with
  | [f0; f1; f2] =>
      match py_int f0, py_int f1 with
      | Ok taxid, Ok parent_taxid => Some (mkEdge taxid parent_taxid (slice_1_m1 f2))
      | _, _ => None
      end
  | _ => None
  end.

Definition edges_of (lines : list string) : list edge := omap parse_edge lines.

(** The loop body once the three fields are read. *)
Definition add_edge (st : gmap Z Node * gmap Z string) (r : edge)
  : result (gmap Z Node * gmap Z string) :=
  let '(dic, taxid2name) := st in
  '(dic, taxid2name) ←
    match dic !! e_id r with
    | Some n =>
        Ok (<[e_id r := mkNode (name n) (Some (e_rank r)) (Some (e_parent r)) (children n)]> dic,
            taxid2name)
    | None =>
        nm ← getitem taxid2name (e_id r);
        Ok (<[e_id r := mkNode nm (Some (e_rank r)) (Some (e_parent r)) []]> dic,
            delete (e_id r) taxid2name)
    end;
  match dic !! e_parent r with
  | Some p =>
      Ok (<[e_parent r := mkNode (name p) (rank p) (parent p) (children p ++ [e_id r])]> dic,
          taxid2name)
  | None =>
      nm ← getitem taxid2name (e_parent r);
      Ok (<[e_parent r := mkNode nm None None [e_id r]]> dic,
          delete (e_parent r) taxid2name)
  end.

(** What the records read so far say about taxid [k]: whether it occurs at
    all, its own (latest) record, and the taxids that name it as parent, in
    order of arrival. *)
Definition mentioned (rs : list edge) (k : Z) : Prop :=
  k ∈ (e_id <$> rs) \/ k ∈ (e_parent <$> rs).

Definition record_of (rs : list edge) (k : Z) : option edge :=
  last (filter (fun r => e_id r = k) rs).

Definition children_of (rs : list edge) (k : Z) : list Z :=
  e_id <$> filter (fun r => e_parent r = k) rs.

(** What is known of taxid [k] in a state of the loop: either it has not
    occurred ([m] false), has no node and still has its entry in
    [taxid2name]; or it has occurred, its name was moved from [taxid2name]
    into its node, whose rank and parent come from its record [rec] and whose
    children are [ch]. *)
Definition node_facts (names : gmap Z string) (st : gmap Z Node * gmap Z string)
    (k : Z) (m : Prop) (rec : option edge) (ch : list Z) : Prop :=
  (~ m /\ st.1 !! k = None /\ st.2 !! k = names !! k)
  \/ (m /\ st.2 !! k = None /\
      exists nm, names !! k = Some nm /\
        st.1 !! k = Some (mkNode nm (e_rank <$> rec) (e_parent <$> rec) ch)).

(** The state of the loop after the records [rs], as a function of [rs] and
    of the name table [names] the loop started with. *)
Definition loop_state (names : gmap Z string) (rs : list edge)
    (st : gmap Z Node * gmap Z string) : Prop :=
  forall k, node_facts names st k (mentioned rs k) (record_of rs k) (children_of rs k).

(** ** Edge streams outside the input contract *)

Definition three_names : list string :=
  [ name_line "1" "root"; name_line "2" "Bacteria"; name_line "3" "Archaea" ].

(** Taxid 3 is named as a parent and has no record of its own. *)
Definition orphan_nodes : list string := [ l1; node_line "2" "3" "genus" ].

Definition orphan_tree : gmap Z Node :=
  list_to_map
    [ (1, mkNode "root" (Some "no rank") None []);
      (2, mkNode "Bacteria" (Some "genus") (Some 3) []);
      (3, mkNode "Archaea" None None [2]) ].

(** The root record comes twice. *)
Definition twice_root_nodes : list string := [ l1; l1 ].

Definition twice_root_tree : gmap Z Node :=
  {[ 1 := mkNode "root" (Some "no rank") None [1] ]}.

(** ** Duplicate taxids in a batch *)

(** A batch query [q] treats the input [taxids] as the collection of its
    distinct taxids: it returns a mapping on [taxids] exactly when it returns
    that mapping on [taxids] without the duplicates, and the keys of the
    mapping are the distinct taxids. *)
Definition collapses_duplicates {V : Type} (q : list Z -> run (gmap Z V))
    (taxids : list Z) : Prop :=
  forall m,
    (q taxids = returns m <-> q (remove_dups taxids) = returns m)
    /\ (q taxids = returns m -> dom m = list_to_set taxids).

(** ** Parent links and lineages *)

(** [b] is the parent recorded in the node of [a]. *)
Definition parent_link (dic : gmap Z Node) (a b : Z) : Prop :=
  exists n, dic !! a = Some n /\ parent n = Some b.

(** No taxid is its own ancestor. *)
Definition parents_acyclic (dic : gmap Z Node) : Prop :=
  forall a, ~ tc (parent_link dic) a a.

(** Every recorded parent is a taxid of the tree. *)
Definition parents_closed (dic : gmap Z Node) : Prop :=
  forall a b, parent_link dic a b -> is_Some (dic !! b).

Definition entry (taxid : Z) (n : Node) : Lin.Node := Lin.mk taxid (rank n) (name n).

(** The lineage of a taxid as the specification describes it: the node
    itself, then the lineage of its parent, up to a node without parent. *)
Inductive lineage_of (dic : gmap Z Node) : Z -> list Lin.Node -> Prop :=
  | lineage_root k n :
      dic !! k = Some n -> parent n = None -> lineage_of dic k [entry k n]
  | lineage_step k n p l :
      dic !! k = Some n -> parent n = Some p -> lineage_of dic p l ->
      lineage_of dic k (entry k n :: l).

(** A stream whose records make taxids 2 and 3 each other's parent; the
    constructor accepts it. *)
Definition cycle_nodes : list string :=
  [ l1; node_line "2" "3" "genus"; node_line "3" "2" "family" ].

Definition cycle_tree : gmap Z Node :=
  list_to_map
    [ (1, mkNode "root" (Some "no rank") None []);
      (2, mkNode "Bacteria" (Some "genus") (Some 3) [3]);
      (3, mkNode "Archaea" (Some "family") (Some 2) [2]) ].

(** ** Child links and subtrees *)

(** [b] is in the child list of the node of [a]. *)
Definition child_link (dic : gmap Z Node) (a b : Z) : Prop :=
  exists n, dic !! a = Some n /\ b ∈ children n.

Definition children_acyclic (dic : gmap Z Node) : Prop :=
  forall a, ~ tc (child_link dic) a a.

Definition children_closed (dic : gmap Z Node) : Prop :=
  forall a b, child_link dic a b -> is_Some (dic !! b).

(** The preorder enumeration of the subtree of a taxid, as the specification
    describes it: the node itself first, then the enumeration of the subtree
    of each child, in child-list order. *)
#[warnings="-register-all"] Inductive preorder (dic : gmap Z Node) : Z -> list Z -> Prop :=
  | preorder_node k n ls :
      dic !! k = Some n ->
      Forall2 (preorder dic) (children n) ls ->
      preorder dic k (k :: concat ls).

(** A taxid of the dictionary whose child list is empty. *)
Definition is_leaf (dic : gmap Z Node) (k : Z) : Prop :=
  exists n, dic !! k = Some n /\ children n = [].

#[global] Instance is_leaf_dec dic k : Decision (is_leaf dic k).
Proof.
  unfold is_leaf. destruct (dic !! k) as [n|].
  - destruct (decide (children n = [])) as [H|H].
    + left. by exists n.
    + right. intros (n' & [= <-] & ?). done.
  - right. by intros (n' & [=] & _).
Defined.

(** ** Malformed edge lines *)

(** A character that no integer literal holds, whatever the interpreter: a
    printable ASCII character other than a digit, a sign or an underscore. *)
Definition is_foreign (c : ascii) : bool :=
  let n := nat_of_ascii c in
  (Nat.leb 33 n && Nat.leb n 126 && negb (is_digit c)
   && negb (Ascii.eqb c "+") && negb (Ascii.eqb c "-") && negb (Ascii.eqb c "_"))%bool.

Fixpoint blank (s : string) : bool :=
  match s with
  | EmptyString => true
  | String c r => (is_space c && blank r)%bool
  end.

Fixpoint has_foreign (s : string) : bool :=
  match s with
  | EmptyString => false
  | String c r => (is_foreign c || has_foreign r)%bool
  end.

(** A field that is not numeric: empty or of ASCII white space only, or with
    a foreign character.  Every [int] raises [ValueError] on such a field;
    what [int] makes of digit grouping or of characters outside ASCII differs
    between interpreters and is not decided here. *)
Definition not_numeric (f : string) : bool := (blank f || has_foreign f)%bool.

(** A line of [nodes.dmp] with fewer than three fields, or whose taxid or
    parent taxid field is not numeric. *)
Definition malformed (line : string) : Prop :=
  (length (split "|" line) < 3)%nat
  \/ (exists f0, nth_error (split "|" line) 0 = Some f0 /\ not_numeric f0 = true)
  \/ (exists f1, nth_error (split "|" line) 1 = Some f1 /\ not_numeric f1 = true).

(** Two fields only; taxid 543 has a name in the example. *)
Definition short_line : string := "543" +:+ tab +:+ "|" +:+ tab +:+ "1".

(** Two fields only; taxid 5 has no name in the example. *)
Definition short_line_no_name : string := "5" +:+ tab +:+ "|" +:+ tab +:+ "1".

(** Three fields, the taxid field with a letter. *)
Definition letter_line : string := node_line "56I" "543" "genus".

(** ** The remaining queries *)

(** [[Node(taxid=leaf, rank=self.dic[leaf].rank, name=self.dic[leaf].name)
      for leaf in self.getLeaves(taxid)]] *)
Definition getLeavesWithRanksAndNames (fuel : nat) (dic : gmap Z Node) (taxid : Z)
  : run (list Lin.Node) :=
  leaves ← getLeaves fuel dic taxid;
  lift (result_map (fun leaf => n ← getitem dic leaf; Ok (Lin.mk leaf (rank n) (name n)))
                   leaves).

(** [[taxid for taxid, node in self.dic.items() if node.rank == rank]].  The
    list comes in the iteration order of the dictionary, which the [gmap] does
    not record: here it is the order of [map_to_list].  The argument is
    compared with the [rank] field, which may be [None]. *)
Definition getTaxidsAtRank (dic : gmap Z Node) (rk : option string) : list Z :=
  (filter (fun item => rank item.2 = rk) (map_to_list dic)).*1.

(** The values [preorderTraversal] returns: a bare taxid, a list, or the
    tuple [(list, taxid)]. *)
#[warnings="-register-all"] Inductive pyobj : Type :=
  | OInt (z : Z)
  | OList (l : list pyobj)
  | OTuple (l : list pyobj).

(** The inner function of [preorderTraversal] when [only_leaves] is set. *)
Fixpoint _preorderTraversal_leaves (fuel : nat) (dic : gmap Z Node) (taxid : Z)
  : run pyobj :=
  match fuel with
  | O => None
  | S fuel' =>
      n ← lift (getitem dic taxid);
      match children n with
      | [] => returns (OInt taxid)
      | _ :: _ =>
          result ← run_map (_preorderTraversal_leaves fuel' dic) (children n);
          returns (OList result)
      end
  end.

(** The inner function of [preorderTraversal] otherwise. *)
Fixpoint _preorderTraversal_nodes (fuel : nat) (dic : gmap Z Node) (taxid : Z)
  : run pyobj :=
  match fuel with
  | O => None
  | S fuel' =>
      n ← lift (getitem dic taxid);
      match children n with
      | [] => returns (OInt taxid)
      | _ :: _ =>
          result ← run_map (_preorderTraversal_nodes fuel' dic) (children n);
          returns (OTuple [OList result; OInt taxid])
      end
  end.

Definition preorderTraversal (fuel : nat) (dic : gmap Z Node) (taxid : Z)
    (only_leaves : bool) : run pyobj :=
  if only_leaves then _preorderTraversal_leaves fuel dic taxid
  else _preorderTraversal_nodes fuel dic taxid.

(** [flatten] on values that may hold tuples: a tuple is expanded like a
    list ([t is tuple or t is list]). *)
Fixpoint flatten_obj_elt (elt : pyobj) : list Z :=
  match elt with
  | OInt z => [z]
  | OList l => concat (map flatten_obj_elt l)
  | OTuple l => concat (map flatten_obj_elt l)
  end.

Definition flatten_obj (seq : pyobj) : result (list Z) :=
  match seq with
  | OInt _ => Raise TypeError
  | OList l => Ok (concat (map flatten_obj_elt l))
  | OTuple l => Ok (concat (map flatten_obj_elt l))
  end.

(** A value without tuples, among the values that may hold some. *)
Fixpoint of_pyval (v : pyval) : pyobj :=
  match v with
  | PInt z => OInt z
  | PList l => OList (map of_pyval l)
  end.

(** The enumeration of a subtree with every node after the subtrees of its
    children, these in child-list order. *)
#[warnings="-register-all"] Inductive postorder (dic : gmap Z Node) : Z -> list Z -> Prop :=
  | postorder_node k n ls :
      dic !! k = Some n ->
      Forall2 (postorder dic) (children n) ls ->
      postorder dic k (concat ls ++ [k]).

(** A line of [names.dmp] that the loop consumes: at least four fields, the
    fourth being the scientific-name label, and a numeric first field. *)
Definition name_row (line : string) : option (Z * string) :=
  match split "|" line with
  | f0 :: f1 :: _ :: label :: _ =>
      if String.eqb label (tab +:+ "scientific name" +:+ tab) then
        match py_int f0 with
        | Ok taxid => Some (taxid, slice_1_m1 f1)
        | Raise _ => None
        end
      else None
  | _ => None
  end.

(** Two scientific-name rows for taxid 1, a synonym row whose first field is
    not a number, and an empty line. *)
Definition synonym_line : string :=
  "x" +:+ tab +:+ "|" +:+ tab +:+ "all" +:+ tab +:+ "|" +:+ tab +:+ tab +:+ "|" +:+ tab
      +:+ "synonym" +:+ tab +:+ "|".

Definition twice_named : list string :=
  [ name_line "1" "root"; synonym_line; name_line "1" "Root" ].


#[global] Instance edge_eq_dec : EqDecision edge.
Proof. solve_decision. Defined.


(** * Properties *)

(** ** Construction on the example *)

(** C1. Feeding the edge records (561,543,genus), (543,1,family),
    (562,561,species) in that order, with the self-referencing root record
    (1,1,no rank) at any position among them, builds the same tree mapping as
    feeding the four records in sorted order, namely [ex_tree]; so does the
    order of the example scenario.  Each build is one [for_each] pass of
    [nodes_step] over the lines. *)
Theorem build_out_of_order :
  build ex_names [l1; l543; l561; l562] = Ok ex_tree
  /\ build ex_names [l561; l543; l562; l1] = build ex_names [l1; l543; l561; l562]
  /\ build ex_names [l561; l543; l1; l562] = build ex_names [l1; l543; l561; l562]
  /\ build ex_names [l561; l1; l543; l562] = build ex_names [l1; l543; l561; l562]
  /\ build ex_names [l1; l561; l543; l562] = build ex_names [l1; l543; l561; l562]
  /\ build ex_names [l562; l561; l543; l1] = build ex_names [l1; l543; l561; l562].
Proof. repeat split; vm_compute; reflexivity. Qed.

(** ** The construction loop, record by record *)

Ltac inv_result :=
  repeat match goal with
  | H : Ok _ = Ok _ |- _ => injection H as H; subst
  | H : Raise _ = Ok _ |- _ => discriminate H
  | H : Ok _ = Raise _ |- _ => discriminate H
  | H : Raise _ = Raise _ |- _ => injection H as H; subst
  end.

Lemma bind_Ok {A B : Type} (r : result A) (k : A -> result B) (b : B) :
  (x ← r; k x) = Ok b <-> exists a, r = Ok a /\ k a = Ok b.
Proof.
  destruct r as [a|e]; cbn; split.
  - eauto.
  - intros (a' & Ha & Hk). by inv_result.
  - discriminate.
  - intros (a' & Ha & _). discriminate.
Qed.

Lemma getitem_Ok {V : Type} (d : gmap Z V) (k : Z) (v : V) :
  getitem d k = Ok v <-> d !! k = Some v.
Proof. unfold getitem. destruct (d !! k); split; intros; by simplify_eq. Qed.

Lemma getitem_list_Ok {A : Type} (l : list A) (i : nat) (x : A) :
  getitem_list l i = Ok x <-> nth_error l i = Some x.
Proof. unfold getitem_list. destruct (nth_error l i); split; intros; by simplify_eq. Qed.

Lemma nodes_step_add_edge st line st' :
  nodes_step st line = Ok st' ->
  exists r, parse_edge line = Some r /\ add_edge st r = Ok st'.
Proof.
  destruct st as [dic t2n]. unfold nodes_step, parse_edge.
  assert (Hlen : (length (take 3 (split "|" line)) <= 3)%nat) by (rewrite length_take; lia).
  destruct (take 3 (split "|" line)) as [|f0 [|f1 [|f2 [|f3 fs]]]];
    cbn in Hlen; try lia; cbn [getitem_list nth_error mbind result_bind]; try discriminate.
  - destruct (py_int f0); cbn; discriminate.
  - destruct (py_int f0) as [a|]; cbn; [|discriminate].
    destruct (py_int f1) as [p|]; cbn; [|discriminate].
    destruct (dic !! a); cbn; [discriminate|].
    destruct (getitem t2n a); cbn; discriminate.
  - destruct (py_int f0) as [a|]; cbn; [|discriminate].
    destruct (py_int f1) as [p|]; cbn; [|discriminate].
    intros H. eexists. split; [reflexivity|]. exact H.
Qed.

Lemma record_of_snoc rs r k :
  record_of (rs ++ [r]) k = if decide (e_id r = k) then Some r else record_of rs k.
Proof.
  unfold record_of. rewrite filter_app.
  case_decide.
  - rewrite filter_cons_True by done. rewrite filter_nil. apply last_snoc.
  - rewrite filter_cons_False by done. rewrite filter_nil. by rewrite app_nil_r.
Qed.

Lemma children_of_snoc rs r k :
  children_of (rs ++ [r]) k
  = children_of rs k ++ (if decide (e_parent r = k) then [e_id r] else []).
Proof.
  unfold children_of. rewrite filter_app, fmap_app.
  case_decide.
  - by rewrite filter_cons_True by done.
  - by rewrite filter_cons_False by done.
Qed.

Lemma mentioned_snoc rs r k :
  mentioned (rs ++ [r]) k <-> mentioned rs k \/ k = e_id r \/ k = e_parent r.
Proof.
  unfold mentioned. rewrite !fmap_app, !elem_of_app. cbn.
  rewrite !list_elem_of_singleton. tauto.
Qed.

Lemma unmentioned_no_record rs k :
  ~ mentioned rs k -> children_of rs k = [] /\ record_of rs k = None.
Proof.
  unfold mentioned, children_of, record_of. intros Hm.
  assert (forall (P : edge -> Prop) `{!forall x, Decision (P x)},
            (forall r, r ∈ rs -> ~ P r) -> filter P rs = []) as Hnone.
  { intros P ? HP. induction rs as [|r rs' IH]; [done|].
    rewrite filter_cons_False by (apply HP; left).
    apply IH.
    - intros [Hin|Hin]; apply Hm; [left|right]; cbn; by right.
    - intros r' Hr'. apply HP. by right. }
  rewrite !Hnone; [done| |].
  - intros r Hr <-. apply Hm. left. by apply list_elem_of_fmap_2.
  - intros r Hr <-. apply Hm. right. by apply list_elem_of_fmap_2.
Qed.

Lemma node_facts_iff names st k (m m' : Prop) rec ch :
  (m <-> m') -> node_facts names st k m rec ch -> node_facts names st k m' rec ch.
Proof. unfold node_facts. tauto. Qed.

(** First half of the loop body: the record sets rank and parent of its own
    taxid, creating the node when it is new. *)
Lemma set_record_facts names dic t2n a p rk dic1 t2n1
    (M : Z -> Prop) (R : Z -> option edge) (C : Z -> list Z) :
  (forall k, node_facts names (dic, t2n) k (M k) (R k) (C k)) ->
  (~ M a -> C a = []) ->
  match dic !! a with
  | Some n => Ok (<[a := mkNode (name n) (Some rk) (Some p) (children n)]> dic, t2n)
  | None => nm ← getitem t2n a;
            Ok (<[a := mkNode nm (Some rk) (Some p) []]> dic, delete a t2n)
  end = Ok (dic1, t2n1) ->
  forall k, node_facts names (dic1, t2n1) k (M k \/ k = a)
              (if decide (a = k) then Some (mkEdge a p rk) else R k) (C k).
Proof.
  intros Hinv Hnil Hstep k.
  pose proof (Hinv a) as Ha. pose proof (Hinv k) as Hk. clear Hinv.
  unfold node_facts in *. cbn [fst snd] in *.
  destruct (dic !! a) as [na|] eqn:Ea.
  - inv_result.
    destruct Ha as [(_ & ? & _)|(Hma & Hta & nma & Hna & Hda)]; [done|].
    injection Hda as ->.
    destruct (decide (a = k)) as [->|Hka].
    + right. rewrite lookup_insert_eq. split; [by left|]. split; [done|].
      exists nma. by split.
    + rewrite lookup_insert_ne by done.
      destruct Hk as [(?&?&?)|(?&?&?)]; [left|right]; (split; [|done]).
      * intros [?|?]; [done|]. by subst.
      * by left.
  - apply bind_Ok in Hstep as (nma & Hg & Hstep). apply getitem_Ok in Hg. inv_result.
    destruct Ha as [(Hma & _ & Hta)|(_ & _ & ? & _ & ?)]; [|done].
    destruct (decide (a = k)) as [->|Hka].
    + right. rewrite lookup_insert_eq, lookup_delete_eq. split; [by right|]. split; [done|].
      exists nma. rewrite <- Hta. split; [done|]. by rewrite (Hnil Hma).
    + rewrite lookup_insert_ne, lookup_delete_ne by done.
      destruct Hk as [(?&?&?)|(?&?&?)]; [left|right]; (split; [|done]).
      * intros [?|?]; [done|]. by subst.
      * by left.
Qed.

(** Second half: the taxid is appended to its parent's children, the parent
    being created as a placeholder when it is new. *)
Lemma add_child_facts names dic t2n a p st'
    (M : Z -> Prop) (R : Z -> option edge) (C : Z -> list Z) :
  (forall k, node_facts names (dic, t2n) k (M k) (R k) (C k)) ->
  (~ M p -> C p = [] /\ R p = None) ->
  match dic !! p with
  | Some n => Ok (<[p := mkNode (name n) (rank n) (parent n) (children n ++ [a])]> dic, t2n)
  | None => nm ← getitem t2n p;
            Ok (<[p := mkNode nm None None [a]]> dic, delete p t2n)
  end = Ok st' ->
  forall k, node_facts names st' k (M k \/ k = p) (R k)
              (C k ++ if decide (p = k) then [a] else []).
Proof.
  intros Hinv Hnil Hstep k.
  pose proof (Hinv p) as Hp. pose proof (Hinv k) as Hk. clear Hinv.
  unfold node_facts in *. cbn [fst snd] in *.
  destruct (dic !! p) as [np|] eqn:Ep.
  - inv_result. cbn [fst snd].
    destruct Hp as [(_ & ? & _)|(Hmp & Htp & nmp & Hnp & Hdp)]; [done|].
    injection Hdp as ->.
    destruct (decide (p = k)) as [->|Hkp].
    + right. rewrite lookup_insert_eq. split; [by left|]. split; [done|].
      exists nmp. by split.
    + rewrite lookup_insert_ne by done. rewrite app_nil_r.
      destruct Hk as [(?&?&?)|(?&?&?)]; [left|right]; (split; [|done]).
      * intros [?|?]; [done|]. by subst.
      * by left.
  - apply bind_Ok in Hstep as (nmp & Hg & Hstep). apply getitem_Ok in Hg. inv_result.
    cbn [fst snd].
    destruct Hp as [(Hmp & _ & Htp)|(_ & _ & ? & _ & ?)]; [|done].
    destruct (Hnil Hmp) as [HC HR].
    destruct (decide (p = k)) as [->|Hkp].
    + right. rewrite lookup_insert_eq, lookup_delete_eq. split; [by right|]. split; [done|].
      exists nmp. rewrite <- Htp. split; [done|]. by rewrite HC, HR.
    + rewrite lookup_insert_ne, lookup_delete_ne by done. rewrite app_nil_r.
      destruct Hk as [(?&?&?)|(?&?&?)]; [left|right]; (split; [|done]).
      * intros [?|?]; [done|]. by subst.
      * by left.
Qed.

Lemma add_edge_loop_state names rs st r st' :
  loop_state names rs st -> add_edge st r = Ok st' ->
  loop_state names (rs ++ [r]) st'.
Proof.
  destruct st as [dic t2n]. destruct r as [a p rk]. unfold add_edge. cbn [e_id e_parent e_rank].
  intros Hinv Hstep.
  apply bind_Ok in Hstep as ([dic1 t2n1] & H1 & H2).
  pose proof (unmentioned_no_record rs) as Hnil.
  pose proof (set_record_facts _ _ _ _ _ _ _ _ _ _ _ Hinv (fun H => proj1 (Hnil a H)) H1) as Hinv1.
  cbn beta in Hinv1.
  assert (~ (mentioned rs p \/ p = a) ->
          children_of rs p = [] /\
          (if decide (a = p) then Some (mkEdge a p rk) else record_of rs p) = None) as Hnil1.
  { intros Hm. assert (~ mentioned rs p) as Hmp by tauto.
    destruct (Hnil p Hmp) as [-> HR]. split; [done|].
    rewrite decide_False; [done|]. intros ->. tauto. }
  pose proof (add_child_facts names dic1 t2n1 a p st' _ _ _ Hinv1 Hnil1 H2) as Hinv2.
  intros k. specialize (Hinv2 k). cbn beta in Hinv2.
  rewrite record_of_snoc, children_of_snoc. cbn [e_id e_parent e_rank].
  eapply node_facts_iff; [|exact Hinv2].
  rewrite mentioned_snoc. cbn [e_id e_parent]. tauto.
Qed.

Lemma loop_state_init names : loop_state names [] (∅, names).
Proof.
  intros k. left. cbn. split; [|done].
  unfold mentioned. cbn. intros [H|H]; by apply elem_of_nil in H.
Qed.

Lemma for_each_nodes_step names lines : forall rs st st',
  loop_state names rs st ->
  for_each nodes_step st lines = Ok st' ->
  exists rs', Forall2 (fun line r => parse_edge line = Some r) lines rs'
              /\ loop_state names (rs ++ rs') st'.
Proof.
  induction lines as [|line lines IH]; intros rs st st' Hinv Hrun; cbn in Hrun.
  - inv_result. exists []. split; [constructor|]. by rewrite app_nil_r.
  - apply bind_Ok in Hrun as (st1 & Hstep & Hrun).
    apply nodes_step_add_edge in Hstep as (r & Hparse & Hstep).
    pose proof (add_edge_loop_state _ _ _ _ _ Hinv Hstep) as Hinv1.
    destruct (IH _ _ _ Hinv1 Hrun) as (rs' & Hall & Hfin).
    exists (r :: rs'). split; [by constructor|].
    by rewrite <- app_assoc in Hfin.
Qed.

Lemma edges_of_parsed lines rs :
  Forall2 (fun line r => parse_edge line = Some r) lines rs -> edges_of lines = rs.
Proof.
  unfold edges_of. induction 1 as [|line r lines rs Hp _ IH]; cbn; [done|].
  rewrite Hp. cbn. by rewrite IH.
Qed.

Lemma for_each_app {S A : Type} (step : S -> A -> result S) (st : S) (xs ys : list A) :
  for_each step st (xs ++ ys) = (st' ← for_each step st xs; for_each step st' ys).
Proof.
  revert st. induction xs as [|x xs IH]; intros st; cbn; [done|].
  destruct (step st x); cbn; [apply IH|done].
Qed.

Lemma list_remove_Ok x l l' :
  list_remove x l = Ok l' <->
  exists l1 l2, l = l1 ++ x :: l2 /\ (x ∉ l1) /\ l' = l1 ++ l2.
Proof.
  revert l'. induction l as [|y l IH]; intros l'; cbn.
  - split; [discriminate|]. intros (l1 & l2 & H & _). by destruct l1.
  - case_decide as Hy.
    + subst y. split.
      * intros ?. inv_result. exists [], l'. split; [done|]. split; [|done]. apply not_elem_of_nil.
      * intros (l1 & l2 & H & Hn & ->). destruct l1 as [|z l1]; cbn in H; simplify_eq; [done|].
        exfalso. apply Hn. left.
    + rewrite bind_Ok. split.
      * intros (l'' & Hr & ?). inv_result. apply IH in Hr as (l1 & l2 & -> & Hn & ->).
        exists (y :: l1), l2. split; [done|]. split; [|done].
        rewrite not_elem_of_cons. by split.
      * intros (l1 & l2 & H & Hn & ->). destruct l1 as [|z l1]; cbn in H; simplify_eq.
        apply not_elem_of_cons in Hn as [_ Hn].
        exists (l1 ++ l2). split; [|done]. apply IH. by exists l1, l2.
Qed.

Lemma list_remove_NoDup x l l' :
  list_remove x l = Ok l' -> NoDup l ->
  (x ∉ l') /\ NoDup l' /\ forall y, y <> x -> y ∈ l -> y ∈ l'.
Proof.
  intros (l1 & l2 & -> & Hn & ->)%list_remove_Ok Hnd.
  apply NoDup_app in Hnd as (Hnd1 & Hdisj & Hnd2).
  apply NoDup_cons in Hnd2 as [Hx Hnd2].
  split; [|split].
  - rewrite elem_of_app. tauto.
  - apply NoDup_app. split; [done|]. split; [|done].
    intros y Hy1 Hy2. apply (Hdisj y Hy1). by right.
  - intros y Hy. rewrite !elem_of_app, elem_of_cons. tauto.
Qed.

(** A build that succeeds read a record off every line of [nodes.dmp], left
    the loop in the state these records determine, and then detached the
    root from itself. *)
Lemma build_Ok names_lines nodes_lines dic :
  build names_lines nodes_lines = Ok dic ->
  exists names dic0 t2n root root_children,
    for_each names_step ∅ names_lines = Ok names
    /\ Forall2 (fun line r => parse_edge line = Some r) nodes_lines (edges_of nodes_lines)
    /\ loop_state names (edges_of nodes_lines) (dic0, t2n)
    /\ dic0 !! 1 = Some root
    /\ list_remove 1 (children root) = Ok root_children
    /\ dic = <[1 := mkNode (name root) (rank root) None root_children]> dic0.
Proof.
  unfold build. intros H.
  apply bind_Ok in H as (names & Hnames & H).
  apply bind_Ok in H as ([dic0 t2n] & Hloop & H).
  unfold finalize in H.
  apply bind_Ok in H as (root & Hroot & H). apply getitem_Ok in Hroot.
  apply bind_Ok in H as (rc & Hrc & H). inv_result.
  destruct (for_each_nodes_step names nodes_lines [] _ _ (loop_state_init names) Hloop)
    as (rs & Hparse & Hst).
  cbn in Hst. pose proof (edges_of_parsed _ _ Hparse) as <-.
  by exists names, dic0, t2n, root, rc.
Qed.

Lemma loop_state_lookup names rs dic t2n k n :
  loop_state names rs (dic, t2n) -> dic !! k = Some n ->
  mentioned rs k /\ rank n = e_rank <$> record_of rs k
  /\ parent n = e_parent <$> record_of rs k /\ children n = children_of rs k
  /\ names !! k = Some (name n).
Proof.
  intros Hst Hk. destruct (Hst k) as [(_ & Hnone & _)|(Hm & _ & nm & Hnm & Hdic)]; cbn in *.
  - congruence.
  - rewrite Hk in Hdic. injection Hdic as ->. by cbn.
Qed.

Lemma record_of_Some rs k r :
  record_of rs k = Some r -> r ∈ rs /\ e_id r = k.
Proof.
  unfold record_of. intros H%last_Some_elem_of. apply list_elem_of_filter in H. tauto.
Qed.

Lemma record_of_is_Some rs k : k ∈ (e_id <$> rs) -> is_Some (record_of rs k).
Proof.
  intros (r & -> & Hr)%list_elem_of_fmap. unfold record_of.
  assert (r ∈ filter (fun r' => e_id r' = e_id r) rs) as Hin by (by apply list_elem_of_filter).
  destruct (filter (fun r' => e_id r' = e_id r) rs) as [|x l] using rev_ind.
  - by apply elem_of_nil in Hin.
  - rewrite last_snoc. by eexists.
Qed.

Lemma children_of_elem rs p k :
  k ∈ children_of rs p <-> exists r, r ∈ rs /\ e_id r = k /\ e_parent r = p.
Proof.
  unfold children_of. rewrite list_elem_of_fmap. split.
  - intros (r & -> & Hr). apply list_elem_of_filter in Hr. exists r. tauto.
  - intros (r & Hr & <- & <-). exists r. split; [done|]. by apply list_elem_of_filter.
Qed.

Lemma children_of_NoDup rs p : NoDup (e_id <$> rs) -> NoDup (children_of rs p).
Proof.
  unfold children_of. intros H. apply (sublist_NoDup _ _ H).
  apply fmap_sublist, sublist_filter.
Qed.

Lemma unique_record rs r r' :
  NoDup (e_id <$> rs) -> r ∈ rs -> r' ∈ rs -> e_id r = e_id r' -> r = r'.
Proof.
  induction rs as [|x rs IH]; cbn; intros Hnd Hr Hr' He.
  - by apply elem_of_nil in Hr.
  - apply NoDup_cons in Hnd as [Hx Hnd].
    apply elem_of_cons in Hr as [->|Hr]; apply elem_of_cons in Hr' as [->|Hr']; auto.
    + exfalso. apply Hx. rewrite He. by apply list_elem_of_fmap_2.
    + exfalso. apply Hx. rewrite <- He. by apply list_elem_of_fmap_2.
Qed.

Lemma getChildren_singleton dic p np :
  dic !! p = Some np -> getChildren dic [p] = Ok {[p := children np]}.
Proof.
  intros Hp. unfold getChildren, batch, getitem. cbn. rewrite Hp. cbn.
  by rewrite insert_empty.
Qed.

Lemma NoDup_count_occ_1 (l : list Z) (x : Z) :
  NoDup l -> x ∈ l -> count_occ Z.eq_dec l x = 1%nat.
Proof.
  intros Hnd Hx. apply NoDup_ListNoDup in Hnd. apply list_elem_of_In in Hx.
  by apply (proj1 (NoDup_count_occ' Z.eq_dec l) Hnd).
Qed.

Section BuiltTree.
Variables (names_lines nodes_lines : list string) (dic : gmap Z Node).
Hypothesis Hbuild : build names_lines nodes_lines = Ok dic.
(** The input contract of the edge stream: one record per taxid, and a
    record for every taxid that is named as a parent. *)
Hypothesis Hunique : NoDup (e_id <$> edges_of nodes_lines).
Hypothesis Hclosed :
  forall r, r ∈ edges_of nodes_lines -> e_parent r ∈ (e_id <$> edges_of nodes_lines).

Lemma built_mentioned_has_record k :
  mentioned (edges_of nodes_lines) k ->
  exists r, record_of (edges_of nodes_lines) k = Some r /\ r ∈ edges_of nodes_lines /\ e_id r = k.
Proof.
  intros Hm.
  assert (k ∈ (e_id <$> edges_of nodes_lines)) as Hk.
  { destruct Hm as [Hm|Hm]; [done|].
    apply list_elem_of_fmap in Hm as (r & -> & Hr). by apply Hclosed. }
  destruct (record_of_is_Some _ _ Hk) as [r Hr].
  exists r. split; [done|]. by apply record_of_Some.
Qed.

Lemma built_single_root :
  (exists root, dic !! 1 = Some root /\ parent root = None)
  /\ (forall k n, dic !! k = Some n -> parent n = None -> k = 1)
  /\ (forall k n, dic !! k = Some n -> 1 ∉ children n).
Proof.
  destruct (build_Ok _ _ _ Hbuild)
    as (names & dic0 & t2n & root & rc & _ & _ & Hst & Hroot & Hrc & ->).
  destruct (loop_state_lookup _ _ _ _ _ _ Hst Hroot) as (_ & _ & _ & Hch & _).
  rewrite Hch in Hrc.
  pose proof (children_of_NoDup _ 1 Hunique) as Hnd.
  destruct (list_remove_NoDup _ _ _ Hrc Hnd) as (Hnot & _ & _).
  split; [|split].
  - eexists. rewrite lookup_insert_eq. by split.
  - intros k n Hk Hp. destruct (decide (k = 1)) as [|Hne]; [done|].
    rewrite lookup_insert_ne in Hk by done.
    destruct (loop_state_lookup _ _ _ _ _ _ Hst Hk) as (Hm & _ & Hpar & _).
    destruct (built_mentioned_has_record k Hm) as (r & Hr & _).
    rewrite Hr in Hpar. cbn in Hpar. congruence.
  - intros k n Hk. destruct (decide (k = 1)) as [->|Hne].
    + rewrite lookup_insert_eq in Hk. by injection Hk as <-.
    + rewrite lookup_insert_ne in Hk by done.
      destruct (loop_state_lookup _ _ _ _ _ _ Hst Hk) as (_ & _ & _ & Hchk & _).
      rewrite Hchk. intros (r & Hr & Hid & Hpar)%children_of_elem.
      apply list_remove_Ok in Hrc as (l1 & l2 & Hsplit & _).
      assert (1 ∈ children_of (edges_of nodes_lines) 1) as Hin.
      { rewrite Hsplit. apply elem_of_app. right. left. }
      apply children_of_elem in Hin as (r' & Hr' & Hid' & Hpar').
      assert (r = r') by (apply (unique_record _ _ _ Hunique Hr Hr'); congruence).
      subst r'. congruence.
Qed.

Lemma built_round_trip k n :
  dic !! k = Some n -> k <> 1 ->
  exists p cs, parent n = Some p /\ getChildren dic [p] = Ok {[p := cs]}
               /\ count_occ Z.eq_dec cs k = 1%nat /\ NoDup cs.
Proof.
  destruct (build_Ok _ _ _ Hbuild)
    as (names & dic0 & t2n & root & rc & _ & _ & Hst & Hroot & Hrc & ->).
  intros Hk Hne. rewrite lookup_insert_ne in Hk by done.
  destruct (loop_state_lookup _ _ _ _ _ _ Hst Hk) as (Hm & _ & Hpar & _).
  destruct (built_mentioned_has_record k Hm) as (r & Hr & Hin & Hid).
  rewrite Hr in Hpar. cbn in Hpar.
  assert (k ∈ children_of (edges_of nodes_lines) (e_parent r)) as Hchild.
  { apply children_of_elem. by exists r. }
  pose proof (children_of_NoDup _ (e_parent r) Hunique) as Hnd.
  assert (mentioned (edges_of nodes_lines) (e_parent r)) as Hmp.
  { right. by apply list_elem_of_fmap_2. }
  destruct (Hst (e_parent r)) as [(Hno & _)|(_ & _ & nm & _ & Hp)]; [done|]. cbn in Hp.
  exists (e_parent r).
  destruct (decide (e_parent r = 1)) as [Hp1|Hp1].
  - rewrite Hp1 in *. rewrite Hroot in Hp. injection Hp as ->. cbn in Hrc.
    destruct (list_remove_NoDup _ _ _ Hrc Hnd) as (_ & Hndrc & Hkeep).
    exists rc. split; [done|]. split.
    + erewrite getChildren_singleton by apply lookup_insert_eq. done.
    + split; [|done]. apply NoDup_count_occ_1; [done|]. by apply Hkeep.
  - eexists. split; [done|]. split.
    + apply getChildren_singleton. rewrite lookup_insert_ne by done. exact Hp.
    + cbn. split; [|done]. by apply NoDup_count_occ_1.
Qed.
End BuiltTree.

(** ** Any order of the same records *)

Lemma nodes_step_parsed st line r :
  parse_edge line = Some r -> nodes_step st line = add_edge st r.
Proof.
  destruct st as [dic t2n]. unfold parse_edge, nodes_step, add_edge.
  destruct (take 3 (split "|" line)) as [|f0 [|f1 [|f2 [|f3 fs]]]]; try discriminate.
  cbn [getitem_list nth_error mbind result_bind].
  destruct (py_int f0) as [a|]; [|discriminate].
  destruct (py_int f1) as [p|]; [|discriminate].
  intros [= <-]. by cbn.
Qed.

Lemma add_edge_succeeds names rs st r :
  loop_state names rs st ->
  is_Some (names !! e_id r) -> is_Some (names !! e_parent r) ->
  exists st', add_edge st r = Ok st'.
Proof.
  destruct st as [dic t2n]. destruct r as [a p rk]. cbn [e_id e_parent e_rank].
  intros Hst [na Hna] [np Hnp]. unfold add_edge. cbn [e_id e_parent e_rank].
  pose proof (Hst a) as Ha. pose proof (Hst p) as Hp. unfold node_facts in *. cbn [fst snd] in *.
  destruct (dic !! a) as [n|] eqn:Ea; cbn [mbind result_bind].
  - destruct (decide (p = a)) as [->|Hpa].
    + rewrite lookup_insert_eq. by eexists.
    + rewrite lookup_insert_ne by done.
      destruct (dic !! p) as [n'|] eqn:Ep; [by eexists|].
      destruct Hp as [(_ & _ & Htp)|(_ & _ & ? & _ & ?)]; [|done].
      rewrite (proj2 (getitem_Ok t2n p np)) by congruence. by eexists.
  - destruct Ha as [(_ & _ & Hta)|(_ & _ & ? & _ & ?)]; [|done].
    rewrite (proj2 (getitem_Ok t2n a na)) by congruence. cbn [mbind result_bind].
    destruct (decide (p = a)) as [->|Hpa].
    + rewrite lookup_insert_eq. by eexists.
    + rewrite lookup_insert_ne by done.
      destruct (dic !! p) as [n'|] eqn:Ep; [by eexists|].
      destruct Hp as [(_ & _ & Htp)|(_ & _ & ? & _ & ?)]; [|done].
      rewrite (proj2 (getitem_Ok (delete a t2n) p np)).
      2:{ rewrite lookup_delete_ne by done. congruence. }
      by eexists.
Qed.

Lemma for_each_nodes_succeeds names lines : forall rs rs0 st,
  loop_state names rs0 st ->
  Forall2 (fun line r => parse_edge line = Some r) lines rs ->
  (forall k, mentioned (rs0 ++ rs) k -> is_Some (names !! k)) ->
  exists st', for_each nodes_step st lines = Ok st' /\ loop_state names (rs0 ++ rs) st'.
Proof.
  induction lines as [|line lines IH]; intros rs rs0 st Hst Hparse Hnames.
  - inversion Hparse; subst. exists st. rewrite app_nil_r. by split.
  - inversion Hparse as [|? r ? rs' Hr Hrs']; subst. cbn [for_each].
    rewrite (nodes_step_parsed st line r Hr).
    destruct (add_edge_succeeds names rs0 st r Hst) as [st1 Hst1].
    { apply Hnames. left. rewrite fmap_app, elem_of_app. right. left. }
    { apply Hnames. right. rewrite fmap_app, elem_of_app. right. left. }
    rewrite Hst1. cbn [mbind result_bind].
    pose proof (add_edge_loop_state _ _ _ _ _ Hst Hst1) as Hst1'.
    destruct (IH rs' (rs0 ++ [r]) st1 Hst1' Hrs') as (st' & Hrun & Hst').
    { intros k. rewrite <- app_assoc. apply Hnames. }
    exists st'. split; [done|]. by rewrite <- app_assoc in Hst'.
Qed.

(** The state of the loop is determined by what the records say of each
    taxid. *)
Lemma loop_state_determined names rs rs' st st' :
  loop_state names rs st -> loop_state names rs' st' ->
  (forall k, (mentioned rs k <-> mentioned rs' k)
             /\ record_of rs k = record_of rs' k
             /\ children_of rs k = children_of rs' k) ->
  st = st'.
Proof.
  intros Hst Hst' Hsame. destruct st as [dic t2n], st' as [dic' t2n'].
  f_equal; apply map_eq; intros k;
    destruct (Hsame k) as (Hm & Hr & Hc);
    destruct (Hst k) as [(Hn & Hd & Ht)|(Hy & Ht & nm & Hnm & Hd)];
    destruct (Hst' k) as [(Hn' & Hd' & Ht')|(Hy' & Ht' & nm' & Hnm' & Hd')];
    cbn [fst snd] in *; try tauto; try congruence.
Qed.

Lemma record_of_unique rs k r :
  NoDup (e_id <$> rs) -> r ∈ rs -> e_id r = k -> record_of rs k = Some r.
Proof.
  intros Hnd Hr Hk.
  destruct (record_of_is_Some rs k) as [r' Hr'].
  { rewrite <- Hk. by apply list_elem_of_fmap_2. }
  rewrite Hr'. f_equal. apply record_of_Some in Hr' as [Hin Hid].
  apply (unique_record rs r' r Hnd Hin Hr). congruence.
Qed.

Lemma record_of_Permutation rs rs' k :
  rs ≡ₚ rs' -> NoDup (e_id <$> rs) -> record_of rs k = record_of rs' k.
Proof.
  intros Hperm Hnd.
  assert (NoDup (e_id <$> rs')) as Hnd' by (by rewrite <- Hperm).
  destruct (record_of rs k) as [r|] eqn:Hr.
  - apply record_of_Some in Hr as [Hin Hid]. symmetry.
    apply record_of_unique; [done| |done]. by rewrite <- Hperm.
  - destruct (record_of rs' k) as [r'|] eqn:Hr'; [|done].
    apply record_of_Some in Hr' as [Hin Hid]. rewrite <- Hperm in Hin.
    by rewrite (record_of_unique rs k r' Hnd Hin Hid) in Hr.
Qed.

Lemma mentioned_Permutation rs rs' k :
  rs ≡ₚ rs' -> mentioned rs k <-> mentioned rs' k.
Proof. intros Hperm. unfold mentioned. by rewrite Hperm. Qed.

Lemma parsed_edges_of lines :
  Forall (fun line => is_Some (parse_edge line)) lines ->
  Forall2 (fun line r => parse_edge line = Some r) lines (edges_of lines).
Proof.
  unfold edges_of. induction 1 as [|line ls [r Hr] _ IH]; cbn; [constructor|].
  rewrite Hr. cbn. by constructor.
Qed.

(** Feeding the records of a stream in another order, the records that share
    a parent keeping their relative order, builds the same tree. *)
Lemma build_any_order names_lines lines lines' dic :
  build names_lines lines = Ok dic ->
  NoDup (e_id <$> edges_of lines) ->
  Forall (fun line => is_Some (parse_edge line)) lines' ->
  edges_of lines ≡ₚ edges_of lines' ->
  (forall k, children_of (edges_of lines) k = children_of (edges_of lines') k) ->
  build names_lines lines' = Ok dic.
Proof.
  intros Hbuild Hnd Hparse Hperm Hsiblings.
  destruct (build_Ok _ _ _ Hbuild)
    as (names & dic0 & t2n & root & rc & Hnames & _ & Hst & Hroot & Hrc & ->).
  pose proof (parsed_edges_of _ Hparse) as Hparse'.
  destruct (for_each_nodes_succeeds names lines' (edges_of lines') [] (∅, names)
              (loop_state_init names) Hparse') as (st' & Hrun' & Hst').
  { intros k Hk. cbn in Hk. apply (mentioned_Permutation _ _ k Hperm) in Hk.
    destruct (Hst k) as [(Hn & _)|(_ & _ & nm & -> & _)]; [done|by eexists]. }
  cbn [app] in Hst'.
  assert ((dic0, t2n) = st') as <-.
  { apply (loop_state_determined names _ _ _ _ Hst Hst'). intros k.
    split; [by apply mentioned_Permutation|]. split; [by apply record_of_Permutation|done]. }
  unfold build. rewrite Hnames. cbn [mbind result_bind]. rewrite Hrun'. cbn [mbind result_bind].
  unfold finalize. rewrite (proj2 (getitem_Ok dic0 1 root) Hroot). cbn [mbind result_bind].
  by rewrite Hrc.
Qed.

(** ** Links of a built tree *)

(** Whatever the stream, the parent and the children recorded in a built
    tree are taxids of the tree. *)
Lemma built_links_closed names_lines nodes_lines dic :
  build names_lines nodes_lines = Ok dic -> parents_closed dic /\ children_closed dic.
Proof.
  intros Hbuild.
  destruct (build_Ok _ _ _ Hbuild)
    as (names & dic0 & t2n & root & rc & _ & _ & Hst & Hroot & Hrc & ->).
  assert (forall k, mentioned (edges_of nodes_lines) k ->
            is_Some (<[1 := mkNode (name root) (rank root) None rc]> dic0 !! k)) as Hdom.
  { intros k Hk. destruct (decide (k = 1)) as [->|Hne].
    - rewrite lookup_insert_eq. by eexists.
    - rewrite lookup_insert_ne by done.
      destruct (Hst k) as [(Hn & _)|(_ & _ & nm & _ & Hd)]; [done|]. by eexists. }
  destruct (loop_state_lookup _ _ _ _ _ _ Hst Hroot) as (_ & _ & _ & Hrch & _).
  split.
  - intros a b (n & Hn & Hp). apply Hdom.
    destruct (decide (a = 1)) as [->|Hne].
    + rewrite lookup_insert_eq in Hn. by simplify_eq.
    + rewrite lookup_insert_ne in Hn by done.
      destruct (loop_state_lookup _ _ _ _ _ _ Hst Hn) as (_ & _ & Hpar & _).
      rewrite Hp in Hpar. destruct (record_of _ a) as [r|] eqn:Hr; [|done].
      apply record_of_Some in Hr as [Hr _]. cbn in Hpar. simplify_eq.
      right. by apply list_elem_of_fmap_2.
  - intros a b (n & Hn & Hb). apply Hdom.
    assert (exists p, b ∈ children_of (edges_of nodes_lines) p) as [p Hin].
    { destruct (decide (a = 1)) as [->|Hne].
      - rewrite lookup_insert_eq in Hn. simplify_eq. cbn in Hb. exists 1.
        apply list_remove_Ok in Hrc as (l1 & l2 & Hsplit & _ & ->).
        rewrite <- Hrch, Hsplit. rewrite !elem_of_app in *. rewrite elem_of_cons. tauto.
      - rewrite lookup_insert_ne in Hn by done.
        destruct (loop_state_lookup _ _ _ _ _ _ Hst Hn) as (_ & _ & _ & Hch & _).
        exists a. by rewrite <- Hch. }
    apply children_of_elem in Hin as (r & Hr & <- & _).
    left. by apply list_elem_of_fmap_2.
Qed.

(** C6 (as stated, fails). Construction completes on an edge stream that
    encodes the root as its own parent and names taxid 3 as a parent without
    giving it a record: the tree then has two nodes without a parent, 1 and 3.
    It also completes when the root record comes twice, and the root then
    stays in its own child list. *)
Lemma single_root_needs_input_contract :
  build three_names orphan_nodes = Ok orphan_tree
  /\ parent <$> orphan_tree !! 1 = Some None
  /\ parent <$> orphan_tree !! 3 = Some None
  /\ build three_names twice_root_nodes = Ok twice_root_tree
  /\ children <$> twice_root_tree !! 1 = Some [1].
Proof. repeat split; vm_compute; reflexivity. Qed.

(** C6 (amended). After a construction that completes on an edge stream in
    which every taxid has one record and every taxid named as a parent has a
    record, the node of taxid 1 has no parent, it is the only node without a
    parent, and 1 is in no node's child list, its own included. *)
Theorem built_tree_single_root names_lines nodes_lines dic :
  build names_lines nodes_lines = Ok dic ->
  NoDup (e_id <$> edges_of nodes_lines) ->
  (forall r, r ∈ edges_of nodes_lines -> e_parent r ∈ (e_id <$> edges_of nodes_lines)) ->
  (exists root, dic !! 1 = Some root /\ parent root = None)
  /\ (forall k n, dic !! k = Some n -> parent n = None -> k = 1)
  /\ (forall k n, dic !! k = Some n -> 1 ∉ children n).
Proof. apply built_single_root. Qed.

Lemma built_tree_single_root_witness :
  (exists root, ex_tree !! 1 = Some root /\ parent root = None)
  /\ (forall k n, ex_tree !! k = Some n -> parent n = None -> k = 1)
  /\ (forall k n, ex_tree !! k = Some n -> 1 ∉ children n).
Proof.
  apply (built_tree_single_root ex_names [l1; l543; l561; l562] ex_tree).
  - vm_compute. reflexivity.
  - refine (bool_decide_unpack _ _). vm_compute. exact I.
  - apply Forall_forall. refine (bool_decide_unpack _ _). vm_compute. exact I.
Defined.

(** C7. After a construction that completes on an edge stream in which each
    taxid receives exactly one edge record, every node [n] other than the
    root has a parent [p], [getChildren([p])] returns, and the taxid of [n]
    occurs exactly once in [getChildren([p])[p]], which has no duplicates. *)
Theorem parent_child_round_trip names_lines nodes_lines dic k n :
  build names_lines nodes_lines = Ok dic ->
  NoDup (e_id <$> edges_of nodes_lines) ->
  (forall r, r ∈ edges_of nodes_lines -> e_parent r ∈ (e_id <$> edges_of nodes_lines)) ->
  dic !! k = Some n -> k <> 1 ->
  exists p cs, parent n = Some p /\ getChildren dic [p] = Ok {[p := cs]}
               /\ count_occ Z.eq_dec cs k = 1%nat /\ NoDup cs.
Proof. intros. by eapply built_round_trip. Qed.

Lemma parent_child_round_trip_witness :
  exists p cs,
    parent (mkNode "Escherichia" (Some "genus") (Some 543) [562]) = Some p
    /\ getChildren ex_tree [p] = Ok {[p := cs]}
    /\ count_occ Z.eq_dec cs 561 = 1%nat /\ NoDup cs.
Proof.
  apply (parent_child_round_trip ex_names [l1; l543; l561; l562] ex_tree 561).
  - vm_compute. reflexivity.
  - refine (bool_decide_unpack _ _). vm_compute. exact I.
  - apply Forall_forall. refine (bool_decide_unpack _ _). vm_compute. exact I.
  - vm_compute. reflexivity.
  - lia.
Defined.

(** ** Batch queries *)

Lemma run_bind_returns {A B : Type} (r : run A) (k : A -> run B) (b : B) :
  (x ← r; k x) = returns b <-> exists a, r = returns a /\ k a = returns b.
Proof.
  unfold returns. destruct r as [[a|e]|]; cbn; split; try discriminate; eauto.
  - intros (a' & Ha & Hk). by simplify_eq.
  - intros (a' & Ha & _). discriminate.
  - intros (a' & Ha & _). discriminate.
Qed.

Section RunBatch.
Context {V : Type} (f : Z -> run V).

Let step := fun (result : gmap Z V) (taxid : Z) =>
  v ← f taxid; returns (<[taxid := v]> result).

Lemma run_each_batch_returns ids : forall acc m,
  run_each step acc ids = returns m ->
  forall k, (k ∈ ids -> exists v, f k = returns v /\ m !! k = Some v)
            /\ (k ∉ ids -> m !! k = acc !! k).
Proof.
  induction ids as [|t ids IH]; intros acc m Hrun k; cbn in Hrun.
  - unfold returns in Hrun. simplify_eq. split; [|done].
    intros H. by apply elem_of_nil in H.
  - apply run_bind_returns in Hrun as (acc' & Hstep & Hrun).
    unfold step in Hstep. apply run_bind_returns in Hstep as (v & Hv & Hacc).
    unfold returns in Hacc. simplify_eq.
    destruct (IH _ _ Hrun k) as [Hin Hout]. split.
    + intros Hk. destruct (decide (k ∈ ids)) as [Hk'|Hk']; [by apply Hin|].
      apply elem_of_cons in Hk as [->|Hk]; [|done].
      exists v. split; [done|]. rewrite (Hout Hk'). apply lookup_insert_eq.
    + intros Hk. apply not_elem_of_cons in Hk as [Hne Hk].
      rewrite (Hout Hk). by apply lookup_insert_ne.
Qed.

Lemma run_each_batch_total ids : forall acc,
  (forall k, k ∈ ids -> exists v, f k = returns v) ->
  exists m, run_each step acc ids = returns m.
Proof.
  induction ids as [|t ids IH]; intros acc Hall; cbn [run_each].
  - by eexists.
  - destruct (Hall t) as [v Hv]; [left|].
    unfold step in *. cbn beta. rewrite Hv. cbn. apply IH.
    intros k Hk. apply Hall. by right.
Qed.

(** The mapping a batch query returns has the input taxids as keys, each with
    the value of the query on that taxid alone. *)
Lemma run_batch_returns ids m :
  run_batch f ids = returns m <->
  (forall k, k ∈ ids -> exists v, f k = returns v /\ m !! k = Some v)
  /\ dom m = list_to_set ids.
Proof.
  unfold run_batch. fold step. split.
  - intros Hrun. pose proof (run_each_batch_returns _ _ _ Hrun) as H. split.
    + intros k. apply H.
    + apply set_eq. intros k. rewrite elem_of_dom, elem_of_list_to_set.
      destruct (decide (k ∈ ids)) as [Hk|Hk].
      * destruct (proj1 (H k) Hk) as (v & _ & ->). by split.
      * rewrite (proj2 (H k) Hk), lookup_empty. split; [by intros [? ?]|done].
  - intros [Hin Hdom].
    destruct (run_each_batch_total ids ∅) as [m' Hm'].
    { intros k Hk. destruct (Hin k Hk) as (v & Hv & _). by exists v. }
    rewrite Hm'. f_equal. f_equal. apply map_eq. intros k.
    pose proof (run_each_batch_returns _ _ _ Hm' k) as [Hin' Hout'].
    destruct (decide (k ∈ ids)) as [Hk|Hk].
    + destruct (Hin k Hk) as (v & Hv & ->). destruct (Hin' Hk) as (v' & Hv' & ->).
      rewrite Hv in Hv'. unfold returns in Hv'. by simplify_eq.
    + rewrite (Hout' Hk), lookup_empty. symmetry. apply not_elem_of_dom.
      rewrite Hdom, elem_of_list_to_set. done.
Qed.

Lemma run_batch_same_taxids ids ids' m :
  (forall k, k ∈ ids <-> k ∈ ids') ->
  run_batch f ids = returns m -> run_batch f ids' = returns m.
Proof.
  intros Hsame [Hin Hdom]%run_batch_returns. apply run_batch_returns. split.
  - intros k Hk. apply Hin. by apply Hsame.
  - rewrite Hdom. apply set_eq. intros k. rewrite !elem_of_list_to_set. apply Hsame.
Qed.

Lemma run_batch_remove_dups ids m :
  run_batch f ids = returns m <-> run_batch f (remove_dups ids) = returns m.
Proof.
  split; apply run_batch_same_taxids; intros k; by rewrite elem_of_remove_dups.
Qed.

Lemma run_batch_singleton t v :
  f t = returns v -> run_batch f [t] = returns {[t := v]}.
Proof. intros Hv. unfold run_batch. cbn. rewrite Hv. cbn. by rewrite insert_empty. Qed.
End RunBatch.

Lemma run_batch_lift {V : Type} (f : Z -> result V) ids :
  run_batch (fun t => lift (f t)) ids = lift (batch f ids).
Proof.
  unfold run_batch, batch. generalize (∅ : gmap Z V).
  induction ids as [|t ids IH]; intros acc; cbn; [done|].
  destruct (f t) as [v|e]; cbn; [apply IH|done].
Qed.

Lemma batch_Ok {V : Type} (f : Z -> result V) ids m :
  batch f ids = Ok m <->
  (forall k, k ∈ ids -> exists v, f k = Ok v /\ m !! k = Some v)
  /\ dom m = list_to_set ids.
Proof.
  transitivity (run_batch (fun t => lift (f t)) ids = returns m).
  - rewrite run_batch_lift. unfold lift, returns. split; [by intros ->|by intros [= ->]].
  - rewrite run_batch_returns. unfold lift, returns.
    split; intros [Hin Hdom]; (split; [|done]); intros k Hk;
      destruct (Hin k Hk) as (v & Hv & Hm); exists v; (split; [|done]); congruence.
Qed.

Lemma batch_remove_dups {V : Type} (f : Z -> result V) ids m :
  batch f ids = Ok m <-> batch f (remove_dups ids) = Ok m.
Proof.
  rewrite !batch_Ok. split; intros [Hin Hdom]; split.
  - intros k Hk. apply Hin. by apply elem_of_remove_dups.
  - rewrite Hdom. apply set_eq. intros k. by rewrite !elem_of_list_to_set, elem_of_remove_dups.
  - intros k Hk. apply Hin. by apply elem_of_remove_dups.
  - rewrite Hdom. apply set_eq. intros k. by rewrite !elem_of_list_to_set, elem_of_remove_dups.
Qed.

Lemma batch_total {V : Type} (f : Z -> result V) ids :
  (forall k, k ∈ ids -> exists v, f k = Ok v) -> exists m, batch f ids = Ok m.
Proof.
  intros Hall.
  destruct (run_each_batch_total (fun t => lift (f t)) ids ∅) as [m Hm].
  { intros k Hk. destruct (Hall k Hk) as [v ->]. by exists v. }
  exists m. pose proof (run_batch_lift f ids) as H. unfold run_batch in H.
  rewrite Hm in H. unfold lift, returns in H. by simplify_eq.
Qed.

(** A batch query over node fields, given the field [g]. *)
Lemma batch_field_Ok {V : Type} (g : Node -> V) dic ids :
  (forall k, k ∈ ids -> is_Some (dic !! k)) ->
  exists m, batch (fun taxid => n ← getitem dic taxid; Ok (g n)) ids = Ok m
            /\ batch (fun taxid => n ← getitem dic taxid; Ok (g n)) (remove_dups ids) = Ok m
            /\ dom m = list_to_set ids
            /\ forall k, k ∈ ids -> m !! k = g <$> dic !! k.
Proof.
  intros Hall.
  destruct (batch_total (fun taxid => n ← getitem dic taxid; Ok (g n)) ids) as [m Hm].
  { intros k Hk. destruct (Hall k Hk) as [n Hn]. exists (g n).
    unfold getitem. by rewrite Hn. }
  exists m. split; [done|]. split; [by apply (proj1 (batch_remove_dups _ _ _))|].
  apply batch_Ok in Hm as [Hin Hdom]. split; [done|].
  intros k Hk. destruct (Hin k Hk) as (v & Hv & ->).
  destruct (Hall k Hk) as [n Hn]. unfold getitem in Hv. rewrite Hn in *. cbn in *.
  by inv_result.
Qed.

(** With an unknown taxid in the input, the loop stops at the first one. *)
Lemma first_unknown dic (ids : list Z) k :
  k ∈ ids -> dic !! k = None ->
  exists k', k' ∈ ids /\ dic !! k' = None /\
    forall (V : Type) (g : Node -> V),
      batch (fun taxid => n ← getitem dic taxid; Ok (g n)) ids = Raise (KeyError k').
Proof.
  unfold batch. intros Hk Hnone.
  assert (exists k', k' ∈ ids /\ dic !! k' = None /\
            forall (V : Type) (g : Node -> V) (acc : gmap Z V),
              for_each (fun result taxid =>
                          v ← (n ← getitem dic taxid; Ok (g n)); Ok (<[taxid := v]> result))
                       acc ids = Raise (KeyError k')) as (k' & ? & ? & H).
  { induction ids as [|t ids IH]; [by apply elem_of_nil in Hk|].
    destruct (dic !! t) as [n|] eqn:Et.
    - apply elem_of_cons in Hk as [->|Hk]; [congruence|].
      destruct (IH Hk) as (k' & Hk' & Hnone' & Hraise).
      exists k'. split; [by right|]. split; [done|].
      intros V g acc. cbn [for_each]. rewrite (proj2 (getitem_Ok dic t n) Et). cbn.
      apply Hraise.
    - exists t. split; [left|]. split; [done|].
      intros V g acc. cbn [for_each]. unfold getitem. by rewrite Et. }
  exists k'. eauto.
Qed.

Lemma run_batch_collapses {V : Type} (f : Z -> run V) ids :
  collapses_duplicates (run_batch f) ids.
Proof.
  intros m. split; [apply run_batch_remove_dups|].
  intros H. by apply run_batch_returns in H as [_ ?].
Qed.

Lemma batch_collapses {V : Type} (f : Z -> result V) ids :
  collapses_duplicates (fun l => lift (batch f l)) ids.
Proof.
  intros m. pose proof (run_batch_collapses (fun t => lift (f t)) ids m) as H.
  by rewrite !run_batch_lift in H.
Qed.

(** C8. For each of [getParent], [getRank], [getName] and [getChildren]: when
    the input holds a taxid that is absent from the tree, the call raises
    [KeyError] on such a taxid (the first one of the input) and returns no
    mapping at all; when every input taxid is in the tree, the call returns a
    mapping whose keys are the input taxids, each with the field of its node. *)
Theorem point_queries_unknown_taxon (dic : gmap Z Node) (ids : list Z) :
  (forall k, k ∈ ids -> dic !! k = None ->
     exists k', k' ∈ ids /\ dic !! k' = None
       /\ getParent dic ids = Raise (KeyError k')
       /\ getRank dic ids = Raise (KeyError k')
       /\ getName dic ids = Raise (KeyError k')
       /\ getChildren dic ids = Raise (KeyError k'))
  /\ ((forall k, k ∈ ids -> is_Some (dic !! k)) ->
      exists mp mr mn mc,
        getParent dic ids = Ok mp /\ getRank dic ids = Ok mr
        /\ getName dic ids = Ok mn /\ getChildren dic ids = Ok mc
        /\ dom mp = list_to_set ids /\ dom mr = list_to_set ids
        /\ dom mn = list_to_set ids /\ dom mc = list_to_set ids
        /\ forall k, k ∈ ids ->
             mp !! k = parent <$> dic !! k /\ mr !! k = rank <$> dic !! k
             /\ mn !! k = name <$> dic !! k /\ mc !! k = children <$> dic !! k).
Proof.
  split.
  - intros k Hk Hnone. destruct (first_unknown dic ids k Hk Hnone) as (k' & Hk' & Hn' & H).
    exists k'. unfold getParent, getRank, getName, getChildren. by rewrite !H.
  - intros Hall.
    destruct (batch_field_Ok parent dic ids Hall) as (mp & Hp & _ & Hdp & Hvp).
    destruct (batch_field_Ok rank dic ids Hall) as (mr & Hr & _ & Hdr & Hvr).
    destruct (batch_field_Ok name dic ids Hall) as (mn & Hn & _ & Hdn & Hvn).
    destruct (batch_field_Ok children dic ids Hall) as (mc & Hc & _ & Hdc & Hvc).
    exists mp, mr, mn, mc. repeat (split; [done|]).
    intros k Hk. by rewrite Hvp, Hvr, Hvn, Hvc.
Qed.

Lemma point_queries_unknown_taxon_witness :
  (exists k', k' ∈ [562; 7; 561] /\ ex_tree !! k' = None
     /\ getParent ex_tree [562; 7; 561] = Raise (KeyError k')
     /\ getRank ex_tree [562; 7; 561] = Raise (KeyError k')
     /\ getName ex_tree [562; 7; 561] = Raise (KeyError k')
     /\ getChildren ex_tree [562; 7; 561] = Raise (KeyError k'))
  /\ (exists mp mr mn mc,
        getParent ex_tree [562; 1] = Ok mp /\ getRank ex_tree [562; 1] = Ok mr
        /\ getName ex_tree [562; 1] = Ok mn /\ getChildren ex_tree [562; 1] = Ok mc
        /\ dom mp = list_to_set [562; 1] /\ dom mr = list_to_set [562; 1]
        /\ dom mn = list_to_set [562; 1] /\ dom mc = list_to_set [562; 1]
        /\ forall k, k ∈ [562; 1] ->
             mp !! k = parent <$> ex_tree !! k /\ mr !! k = rank <$> ex_tree !! k
             /\ mn !! k = name <$> ex_tree !! k /\ mc !! k = children <$> ex_tree !! k).
Proof.
  split.
  - apply (proj1 (point_queries_unknown_taxon ex_tree [562; 7; 561]) 7).
    + refine (bool_decide_unpack _ _). vm_compute. exact I.
    + vm_compute. reflexivity.
  - apply (proj2 (point_queries_unknown_taxon ex_tree [562; 1])).
    apply Forall_forall. refine (bool_decide_unpack _ _). vm_compute. exact I.
Defined.

(** ** The ascendant walk *)

Lemma getitem_Raise {V : Type} (d : gmap Z V) (k : Z) :
  d !! k = None -> getitem d k = Raise (KeyError k).
Proof. unfold getitem. by intros ->. Qed.

Lemma lineage_of_head dic k l :
  lineage_of dic k l -> exists n, dic !! k = Some n /\ hd_error l = Some (entry k n).
Proof. destruct 1; eauto. Qed.

Lemma lineage_of_last dic k l :
  lineage_of dic k l ->
  exists r nr, last l = Some (entry r nr) /\ dic !! r = Some nr /\ parent nr = None.
Proof.
  induction 1 as [k n Hk Hp|k n p l Hk Hp Hl (r & nr & Hlast & Hr & Hpr)].
  - by exists k, n.
  - exists r, nr. split; [|done]. destruct l as [|x l]; [done|]. by rewrite last_cons_cons.
Qed.

Lemma lineage_of_root dic k n l :
  lineage_of dic k l -> dic !! k = Some n -> parent n = None -> l = [entry k n].
Proof. destruct 1; intros; simplify_eq; done. Qed.

Section Ascend.
Variable dic : gmap Z Node.
Hypothesis Hacyclic : parents_acyclic dic.

(** The walk from [k], with the taxids [V] already left behind: each step
    leaves one more taxid of the dictionary behind, so a budget of as many
    steps as there are taxids not in [V] is enough. *)
Lemma ascend_terminates : forall fuel (V : gset Z) k n acc,
  dic !! k = Some n ->
  (forall v, v ∈ V -> tc (parent_link dic) v k) ->
  (size (dom dic ∖ V) <= fuel)%nat ->
  (exists l, ascend fuel dic k acc = returns (acc ++ l)
             /\ lineage_of dic k (entry k n :: l))
  \/ (exists a p, ascend fuel dic k acc = raises (KeyError p)
                  /\ parent_link dic a p /\ dic !! p = None).
Proof.
  induction fuel as [|fuel IH]; intros V k n acc Hk Htc Hsize.
  - exfalso.
    assert (k ∉ V) as HkV by (intros HkV; exact (Hacyclic k (Htc k HkV))).
    assert (k ∈ dom dic ∖ V) as Hin by (apply elem_of_difference; split; [by apply elem_of_dom|done]).
    assert (size (dom dic ∖ V) ≠ 0%nat) as Hne.
    { apply size_non_empty_iff. intros Hempty. rewrite Hempty in Hin.
      by apply not_elem_of_empty in Hin. }
    lia.
  - assert (k ∉ V) as HkV by (intros HkV; exact (Hacyclic k (Htc k HkV))).
    cbn [ascend]. rewrite (proj2 (getitem_Ok dic k n) Hk). cbn.
    destruct (parent n) as [p|] eqn:Hp.
    + destruct (dic !! p) as [np|] eqn:Hnp.
      * rewrite (proj2 (getitem_Ok dic p np) Hnp). cbn.
        destruct (IH (V ∪ {[k]}) p np (acc ++ [Lin.mk p (rank np) (name np)]) Hnp)
          as [(l & Hrun & Hl)|(a & p' & Hrun & Hlink & Hnone)].
        -- intros v [Hv|Hv%elem_of_singleton]%elem_of_union.
           ++ eapply tc_r; [by apply Htc|]. by exists n.
           ++ subst v. apply tc_once. by exists n.
        -- assert (dom dic ∖ (V ∪ {[k]}) ⊂ dom dic ∖ V) as Hsub.
           { split.
             - intros x. rewrite !elem_of_difference, not_elem_of_union. tauto.
             - intros Hsub.
               assert (k ∈ dom dic ∖ V) as Hin
                 by (apply elem_of_difference; split; [by apply elem_of_dom|done]).
               apply Hsub, elem_of_difference in Hin as [_ Hin].
               apply Hin, elem_of_union. right. by apply elem_of_singleton. }
           apply subset_size in Hsub. lia.
        -- left. exists (entry p np :: l). split.
           ++ rewrite Hrun. by rewrite <- app_assoc.
           ++ by eapply lineage_step.
        -- right. by exists a, p'.
      * rewrite (getitem_Raise dic p Hnp). cbn. right. exists k, p.
        split; [done|]. split; [by exists n|done].
    + left. exists []. split; [by rewrite app_nil_r|]. by apply lineage_root.
Qed.

Lemma getAscendants_one fuel k n :
  dic !! k = Some n -> (size dic <= fuel)%nat ->
  (exists l, _getAscendantsWithRanksAndNames fuel dic k false = returns l
             /\ lineage_of dic k l)
  \/ (exists a p, _getAscendantsWithRanksAndNames fuel dic k false = raises (KeyError p)
                  /\ parent_link dic a p /\ dic !! p = None).
Proof.
  intros Hk Hfuel. unfold _getAscendantsWithRanksAndNames.
  rewrite (proj2 (getitem_Ok dic k n) Hk). cbn.
  destruct (ascend_terminates fuel ∅ k n [Lin.mk k (rank n) (name n)] Hk)
    as [(l & -> & Hl)|(a & p & -> & Hlink & Hnone)].
  - intros v Hv. by apply not_elem_of_empty in Hv.
  - rewrite difference_empty_L, size_dom. done.
  - left. by exists (entry k n :: l).
  - right. by exists a, p.
Qed.

Lemma getAscendants_one_closed fuel k n :
  parents_closed dic -> dic !! k = Some n -> (size dic <= fuel)%nat ->
  exists l, _getAscendantsWithRanksAndNames fuel dic k false = returns l
            /\ lineage_of dic k l.
Proof.
  intros Hclosed Hk Hfuel.
  destruct (getAscendants_one fuel k n Hk Hfuel) as [?|(a & p & _ & Hlink & Hnone)]; [done|].
  destruct (Hclosed a p Hlink) as [? ?]. congruence.
Qed.
End Ascend.

(** The filtered call, from the unfiltered one. *)
Lemma getAscendants_std fuel dic k l :
  _getAscendantsWithRanksAndNames fuel dic k false = returns l ->
  forall first, hd_error l = Some first ->
  _getAscendantsWithRanksAndNames fuel dic k true
  = returns ((if decide (Lin.rank first = Some "no rank") then [first] else [])
             ++ filter (fun lvl => in_standard_ranks (Lin.rank lvl) = true) l).
Proof.
  unfold _getAscendantsWithRanksAndNames. intros Hrun first Hfirst.
  destruct (getitem dic k) as [n|e]; cbn in *; [|discriminate].
  destruct (ascend fuel dic k [Lin.mk k (rank n) (name n)]) as [[l'|e]|]; cbn in *;
    try discriminate.
  unfold returns in Hrun. simplify_eq.
  destruct l as [|x l]; cbn in Hfirst; simplify_eq. cbn.
  by case_decide.
Qed.

Lemma in_standard_ranks_true r :
  in_standard_ranks r = true <-> exists s, r = Some s /\ s ∈ standard_ranks.
Proof.
  destruct r as [s|]; cbn.
  - rewrite bool_decide_eq_true. split; [eauto|]. by intros (? & [= <-] & ?).
  - split; [discriminate|]. by intros (? & ? & _).
Qed.

Lemma cycle_never_returns fuel : forall acc,
  ascend fuel cycle_tree 2 acc = None /\ ascend fuel cycle_tree 3 acc = None.
Proof.
  assert (cycle_tree !! 2 = Some (mkNode "Bacteria" (Some "genus") (Some 3) [3])) as H2
    by (vm_compute; reflexivity).
  assert (cycle_tree !! 3 = Some (mkNode "Archaea" (Some "family") (Some 2) [2])) as H3
    by (vm_compute; reflexivity).
  induction fuel as [|fuel IH]; intros acc; [done|].
  apply getitem_Ok in H2, H3. cbn [ascend]. rewrite H2, H3.
  cbn [mbind run_bind lift parent]. rewrite H2, H3. cbn [mbind run_bind lift].
  split; apply IH.
Qed.

(** Checks that decide the two hypotheses on a given dictionary. *)
Lemma acyclic_by_depth dic (depth : Z -> nat) :
  map_Forall (fun k n => match parent n with
                         | Some p => (depth p <? depth k)%nat
                         | None => true
                         end = true) dic ->
  parents_acyclic dic.
Proof.
  intros Hall.
  assert (forall a b, tc (parent_link dic) a b -> (depth b < depth a)%nat) as Hlt.
  { assert (forall a b, parent_link dic a b -> (depth b < depth a)%nat) as Hstep.
    { intros a b (n & Hn & Hp). specialize (Hall a n Hn). cbn in Hall. rewrite Hp in Hall.
      by apply Nat.ltb_lt. }
    induction 1 as [a b H|a b c H _ IH].
    - by apply Hstep.
    - apply Hstep in H. lia. }
  intros a Ha. apply Hlt in Ha. lia.
Qed.

Lemma closed_by_lookup dic :
  map_Forall (fun k n => match parent n with
                         | Some p => bool_decide (is_Some (dic !! p))
                         | None => true
                         end = true) dic ->
  parents_closed dic.
Proof.
  intros Hall a b (n & Hn & Hp). specialize (Hall a n Hn). cbn in Hall. rewrite Hp in Hall.
  by apply bool_decide_eq_true in Hall.
Qed.

Lemma ex_tree_acyclic : parents_acyclic ex_tree.
Proof.
  apply (acyclic_by_depth ex_tree Z.to_nat).
  refine (bool_decide_unpack _ _). vm_compute. exact I.
Qed.

Lemma ex_tree_closed : parents_closed ex_tree.
Proof. apply closed_by_lookup. refine (bool_decide_unpack _ _). vm_compute. exact I. Qed.

(** C2 (as stated, fails). The constructor accepts an edge stream in which
    taxids 2 and 3 are each other's parent; on the tree it builds, the
    ascendant walk from taxid 2 neither returns nor raises within any number
    of steps. *)
Lemma ascendants_loop_on_cycle :
  build three_names cycle_nodes = Ok cycle_tree
  /\ is_Some (cycle_tree !! 2)
  /\ forall fuel, getAscendantsWithRanksAndNames fuel cycle_tree [2] false = None.
Proof.
  split; [vm_compute; reflexivity|]. split; [by eexists|].
  intros fuel. unfold getAscendantsWithRanksAndNames, run_batch, _getAscendantsWithRanksAndNames.
  cbn [run_each].
  assert (getitem cycle_tree 2 = Ok (mkNode "Bacteria" (Some "genus") (Some 3) [3])) as ->
    by (vm_compute; reflexivity).
  cbn [mbind run_bind lift]. by rewrite (proj1 (cycle_never_returns fuel _)).
Qed.

(** C2 (amended). For every taxid of a dictionary whose parent links have no
    cycle, [getAscendantsWithRanksAndNames([id])] terminates within as many
    loop tests as the dictionary has taxids.  It returns the lineage of the
    taxid: the queried node first, then parent after parent, the last entry
    being a node without parent; the lineage of a node without parent has
    that one entry.  The call raises [KeyError] when the walk meets a parent
    that is not in the dictionary, which cannot happen when every recorded
    parent is in the dictionary. *)
Theorem ascendants_terminate (dic : gmap Z Node) (id : Z) (n : Node) (fuel : nat) :
  dic !! id = Some n -> parents_acyclic dic -> (size dic <= fuel)%nat ->
  exists out,
    getAscendantsWithRanksAndNames fuel dic [id] false = Some out
    /\ match out with
       | Ok m =>
           exists l r nr,
             m = {[id := l]} /\ lineage_of dic id l
             /\ hd_error l = Some (entry id n)
             /\ last l = Some (entry r nr) /\ dic !! r = Some nr /\ parent nr = None
             /\ (parent n = None -> l = [entry id n])
       | Raise e =>
           exists a p, e = KeyError p /\ parent_link dic a p /\ dic !! p = None
       end
    /\ (parents_closed dic -> exists m, out = Ok m).
Proof.
  intros Hid Hacyclic Hfuel.
  destruct (getAscendants_one dic Hacyclic fuel id n Hid Hfuel)
    as [(l & Hrun & Hl)|(a & p & Hrun & Hlink & Hnone)].
  - exists (Ok {[id := l]}). split; [|split].
    + unfold getAscendantsWithRanksAndNames. by apply run_batch_singleton.
    + destruct (lineage_of_head _ _ _ Hl) as (n' & Hn' & Hhd).
      destruct (lineage_of_last _ _ _ Hl) as (r & nr & Hlast & Hr & Hpr).
      simplify_eq. exists l, r, nr. repeat (split; [done|]).
      intros Hp. by eapply lineage_of_root.
    + by eexists.
  - exists (Raise (KeyError p)). split; [|split].
    + unfold getAscendantsWithRanksAndNames, run_batch. cbn [run_each]. by rewrite Hrun.
    + by exists a, p.
    + intros Hclosed. destruct (Hclosed a p Hlink) as [? ?]. congruence.
Qed.

Lemma ascendants_terminate_witness :
  exists out,
    getAscendantsWithRanksAndNames 4 ex_tree [562] false = Some out
    /\ match out with
       | Ok m =>
           exists l r nr,
             m = {[562 := l]} /\ lineage_of ex_tree 562 l
             /\ hd_error l
                = Some (entry 562 (mkNode "Escherichia coli" (Some "species") (Some 561) []))
             /\ last l = Some (entry r nr) /\ ex_tree !! r = Some nr /\ parent nr = None
             /\ (parent (mkNode "Escherichia coli" (Some "species") (Some 561) []) = None ->
                 l = [entry 562 (mkNode "Escherichia coli" (Some "species") (Some 561) [])])
       | Raise e =>
           exists a p, e = KeyError p /\ parent_link ex_tree a p /\ ex_tree !! p = None
       end
    /\ (parents_closed ex_tree -> exists m, out = Ok m).
Proof.
  apply (ascendants_terminate ex_tree 562
           (mkNode "Escherichia coli" (Some "species") (Some 561) []) 4).
  - vm_compute. reflexivity.
  - exact ex_tree_acyclic.
  - vm_compute. lia.
Defined.

(** C3. For every taxid of a dictionary whose parent links have no cycle and
    stay inside the dictionary, the call with [only_std_ranks=True] returns
    the entries of the unfiltered lineage whose rank is one of the seven
    standard ranks, in order, preceded by the first entry of the unfiltered
    lineage (the queried node) when its rank is "no rank". *)
Theorem std_ranks_filter (dic : gmap Z Node) (id : Z) (n : Node) (fuel : nat) :
  dic !! id = Some n -> parents_acyclic dic -> parents_closed dic ->
  (size dic <= fuel)%nat ->
  exists l,
    getAscendantsWithRanksAndNames fuel dic [id] false = returns {[id := l]}
    /\ hd_error l = Some (entry id n)
    /\ getAscendantsWithRanksAndNames fuel dic [id] true
       = returns {[id := (if decide (rank n = Some "no rank") then [entry id n] else [])
                         ++ filter (fun lvl => in_standard_ranks (Lin.rank lvl) = true) l]}
    /\ forall lvl,
         lvl ∈ filter (fun lvl => in_standard_ranks (Lin.rank lvl) = true) l ->
         exists s, Lin.rank lvl = Some s /\ s ∈ standard_ranks.
Proof.
  intros Hid Hacyclic Hclosed Hfuel.
  destruct (getAscendants_one_closed dic Hacyclic fuel id n Hclosed Hid Hfuel) as (l & Hrun & Hl).
  destruct (lineage_of_head _ _ _ Hl) as (n' & Hn' & Hhd). simplify_eq.
  exists l. split; [|split; [done|split]].
  - unfold getAscendantsWithRanksAndNames. by apply run_batch_singleton.
  - unfold getAscendantsWithRanksAndNames. apply run_batch_singleton.
    by rewrite (getAscendants_std _ _ _ _ Hrun _ Hhd).
  - intros lvl Hlvl. apply list_elem_of_filter in Hlvl as [Hstd _].
    by apply in_standard_ranks_true.
Qed.

Lemma std_ranks_filter_witness :
  exists l,
    getAscendantsWithRanksAndNames 4 ex_tree [1] false = returns {[1 := l]}
    /\ hd_error l = Some (entry 1 (mkNode "root" (Some "no rank") None [543]))
    /\ getAscendantsWithRanksAndNames 4 ex_tree [1] true
       = returns {[1 := (if decide (rank (mkNode "root" (Some "no rank") None [543])
                                     = Some "no rank")
                         then [entry 1 (mkNode "root" (Some "no rank") None [543])] else [])
                        ++ filter (fun lvl => in_standard_ranks (Lin.rank lvl) = true) l]}
    /\ forall lvl,
         lvl ∈ filter (fun lvl => in_standard_ranks (Lin.rank lvl) = true) l ->
         exists s, Lin.rank lvl = Some s /\ s ∈ standard_ranks.
Proof.
  apply (std_ranks_filter ex_tree 1 (mkNode "root" (Some "no rank") None [543]) 4).
  - vm_compute. reflexivity.
  - exact ex_tree_acyclic.
  - exact ex_tree_closed.
  - vm_compute. lia.
Defined.

(** ** The recursive descents *)

Lemma run_map_returns {A B : Type} (f : A -> run B) xs ys :
  run_map f xs = returns ys <-> Forall2 (fun x y => f x = returns y) xs ys.
Proof.
  revert ys. induction xs as [|x xs IH]; intros ys; cbn [run_map].
  - unfold returns. split.
    + intros [= <-]. constructor.
    + by inversion 1.
  - rewrite run_bind_returns. split.
    + intros (y & Hy & Hrest). apply run_bind_returns in Hrest as (ys' & Hys' & Hret).
      unfold returns in Hret. simplify_eq. constructor; [done|]. by apply IH.
    + inversion 1 as [|? y ? ys' Hy Hys']; subst. exists y. split; [done|].
      apply run_bind_returns. exists ys'. split; [by apply IH|done].
Qed.

Lemma run_map_total {A B : Type} (f : A -> run B) xs :
  (forall x, x ∈ xs -> exists y, f x = returns y) -> exists ys, run_map f xs = returns ys.
Proof.
  induction xs as [|x xs IH]; intros Hall; cbn [run_map].
  - by eexists.
  - destruct (Hall x) as [y Hy]; [left|]. destruct IH as [ys Hys].
    { intros x' Hx'. apply Hall. by right. }
    exists (y :: ys). rewrite Hy. cbn. rewrite Hys. done.
Qed.

(** The two descents return a bare taxid on a node without children and a
    list on any other node. *)
Lemma _getDescendants_returns fuel dic k v :
  _getDescendants fuel dic k = returns v ->
  exists fuel' n, fuel = S fuel' /\ dic !! k = Some n
    /\ ((children n = [] /\ v = PInt k)
        \/ (children n <> [] /\ exists vs,
              run_map (_getDescendants fuel' dic) (children n) = returns vs
              /\ v = PList (PInt k :: vs))).
Proof.
  destruct fuel as [|fuel']; [discriminate|]. cbn [_getDescendants].
  intros (n & Hn & H)%run_bind_returns. unfold lift, returns in Hn.
  assert (getitem dic k = Ok n) as Hn' by congruence. apply getitem_Ok in Hn'.
  exists fuel', n. split; [done|]. split; [done|].
  destruct (children n) as [|c cs] eqn:Hc.
  - left. unfold returns in H. by simplify_eq.
  - right. split; [done|]. apply run_bind_returns in H as (vs & Hvs & Hv).
    unfold returns in Hv. simplify_eq. by exists vs.
Qed.

Lemma _getLeaves_returns fuel dic k w :
  _getLeaves fuel dic k = returns w ->
  exists fuel' n, fuel = S fuel' /\ dic !! k = Some n
    /\ ((children n = [] /\ w = PInt k)
        \/ (children n <> [] /\ exists ws,
              run_map (_getLeaves fuel' dic) (children n) = returns ws
              /\ w = PList ws)).
Proof.
  destruct fuel as [|fuel']; [discriminate|]. cbn [_getLeaves].
  intros (n & Hn & H)%run_bind_returns. unfold lift, returns in Hn.
  assert (getitem dic k = Ok n) as Hn' by congruence. apply getitem_Ok in Hn'.
  exists fuel', n. split; [done|]. split; [done|].
  destruct (children n) as [|c cs] eqn:Hc.
  - left. unfold returns in H. by simplify_eq.
  - right. split; [done|]. apply run_bind_returns in H as (ws & Hws & Hw).
    unfold returns in Hw. simplify_eq. by exists ws.
Qed.

(** What [_getDescendants] returns flattens to the preorder enumeration. *)
Lemma _getDescendants_preorder dic : forall fuel k v,
  _getDescendants fuel dic k = returns v -> preorder dic k (flatten_elt v).
Proof.
  induction fuel as [|fuel IH]; intros k v Hrun; [discriminate|].
  apply _getDescendants_returns in Hrun
    as (fuel' & n & [= <-] & Hn & [[Hc ->]|[Hc (vs & Hvs & ->)]]).
  - change (flatten_elt (PInt k)) with (k :: concat []).
    econstructor; [done|]. rewrite Hc. constructor.
  - change (flatten_elt (PList (PInt k :: vs))) with (k :: concat (map flatten_elt vs)).
    econstructor; [done|].
    apply run_map_returns in Hvs. clear Hc.
    induction Hvs as [|c v' cs vs' Hv' _ IHl]; cbn; constructor; [by apply IH|done].
Qed.

Lemma filter_concat {A : Type} (P : A -> Prop) `{!forall x, Decision (P x)} (ls : list (list A)) :
  filter P (concat ls) = concat (map (filter P) ls).
Proof.
  induction ls as [|l ls IH]; cbn; [done|]. by rewrite filter_app, IH.
Qed.

(** What [_getLeaves] returns flattens to the leaves of that enumeration. *)
Lemma _getLeaves_filter dic : forall fuel k v w,
  _getDescendants fuel dic k = returns v -> _getLeaves fuel dic k = returns w ->
  flatten_elt w = filter (is_leaf dic) (flatten_elt v).
Proof.
  induction fuel as [|fuel IH]; intros k v w Hv Hw; [discriminate|].
  apply _getDescendants_returns in Hv
    as (fuel' & n & [= <-] & Hn & [[Hc ->]|[Hc (vs & Hvs & ->)]]);
  apply _getLeaves_returns in Hw
    as (fuel'' & n' & [= <-] & Hn' & [[Hc' ->]|[Hc' (ws & Hws & ->)]]);
  simplify_eq.
  - cbn [flatten_elt]. rewrite filter_cons_True; [done|]. by exists n.
  - change (flatten_elt (PList (PInt k :: vs))) with (k :: concat (map flatten_elt vs)).
    rewrite filter_cons_False.
    2:{ intros (n' & Hn' & ?). by simplify_eq. }
    cbn [flatten_elt]. rewrite filter_concat. f_equal.
    apply run_map_returns in Hvs, Hws. clear Hc Hc'.
    revert ws Hws. induction Hvs as [|c v' cs vs' Hv' _ IHl]; intros ws Hws.
    + by inversion Hws.
    + inversion Hws as [|? w' ? ws' Hw' Hws']; subst. cbn. f_equal; [|by apply IHl].
      by eapply IH.
Qed.

Section Descend.
Variable dic : gmap Z Node.
Hypothesis Hacyclic : children_acyclic dic.
Hypothesis Hclosed : children_closed dic.

Lemma descents_terminate : forall fuel (V : gset Z) k n,
  dic !! k = Some n ->
  (forall v, v ∈ V -> tc (child_link dic) v k) ->
  (size (dom dic ∖ V) <= fuel)%nat ->
  exists v w, _getDescendants fuel dic k = returns v /\ _getLeaves fuel dic k = returns w.
Proof.
  induction fuel as [|fuel IH]; intros V k n Hk Htc Hsize.
  - exfalso.
    assert (k ∉ V) as HkV by (intros HkV; exact (Hacyclic k (Htc k HkV))).
    assert (k ∈ dom dic ∖ V) as Hin by (apply elem_of_difference; split; [by apply elem_of_dom|done]).
    assert (size (dom dic ∖ V) ≠ 0%nat) as Hne.
    { apply size_non_empty_iff. intros Hempty. rewrite Hempty in Hin.
      by apply not_elem_of_empty in Hin. }
    lia.
  - assert (k ∉ V) as HkV by (intros HkV; exact (Hacyclic k (Htc k HkV))).
    cbn [_getDescendants _getLeaves]. rewrite (proj2 (getitem_Ok dic k n) Hk). cbn [mbind run_bind lift].
    destruct (children n) as [|c cs] eqn:Hc; [by eexists _, _|].
    rewrite <- Hc.
    assert (forall x, x ∈ children n ->
              exists v w, _getDescendants fuel dic x = returns v
                          /\ _getLeaves fuel dic x = returns w) as Hchildren.
    { intros x Hx.
      assert (child_link dic k x) as Hlink by (by exists n).
      destruct (Hclosed k x Hlink) as [nx Hnx].
      apply (IH (V ∪ {[k]}) x nx Hnx).
      - intros v [Hv|Hv%elem_of_singleton]%elem_of_union.
        + eapply tc_r; [by apply Htc|done].
        + subst v. by apply tc_once.
      - assert (dom dic ∖ (V ∪ {[k]}) ⊂ dom dic ∖ V) as Hsub.
        { split.
          - intros y. rewrite !elem_of_difference, not_elem_of_union. tauto.
          - intros Hsub.
            assert (k ∈ dom dic ∖ V) as Hin
              by (apply elem_of_difference; split; [by apply elem_of_dom|done]).
            apply Hsub, elem_of_difference in Hin as [_ Hin].
            apply Hin, elem_of_union. right. by apply elem_of_singleton. }
        apply subset_size in Hsub. lia. }
    destruct (run_map_total (_getDescendants fuel dic) (children n)) as [vs Hvs].
    { intros x Hx. destruct (Hchildren x Hx) as (v & _ & Hv & _). by exists v. }
    destruct (run_map_total (_getLeaves fuel dic) (children n)) as [ws Hws].
    { intros x Hx. destruct (Hchildren x Hx) as (_ & w & _ & Hw). by exists w. }
    rewrite Hvs, Hws. cbn. by eexists _, _.
Qed.

Lemma descents_return fuel k n :
  dic !! k = Some n -> (size dic <= fuel)%nat ->
  exists v w, _getDescendants fuel dic k = returns v /\ _getLeaves fuel dic k = returns w.
Proof.
  intros Hk Hfuel. apply (descents_terminate fuel ∅ k n Hk).
  - intros v Hv. by apply not_elem_of_empty in Hv.
  - by rewrite difference_empty_L, size_dom.
Qed.
End Descend.

(** On a taxid without children the descent returns the bare taxid:
    [getLeaves] wraps it in a list, [getDescendants] passes it to [flatten]
    and [getDescendantsWithRanksAndNames] iterates over it. *)
Lemma queries_on_leaf dic k n fuel :
  dic !! k = Some n -> children n = [] ->
  getLeaves (S fuel) dic k = returns [k]
  /\ getDescendants (S fuel) dic [k] = raises TypeError
  /\ getDescendantsWithRanksAndNames (S fuel) dic [k] = raises TypeError.
Proof.
  intros Hk Hc. apply getitem_Ok in Hk.
  unfold getLeaves, getDescendants, getDescendantsWithRanksAndNames, run_batch.
  cbn [run_each _getLeaves _getDescendants]. rewrite Hk. cbn [mbind run_bind lift].
  by rewrite Hc.
Qed.


(** With a child that has children of its own, the list that
    [getDescendantsWithRanksAndNames] iterates over holds a list, which is no
    dictionary key. *)
Lemma describe_children dic fuel cs vs :
  Forall2 (fun c v => _getDescendants fuel dic c = returns v) cs vs ->
  (exists c, c ∈ cs /\ ~ is_leaf dic c) ->
  result_map (describe dic) vs = Raise TypeError.
Proof.
  induction 1 as [|c v cs vs Hv _ IH]; intros (c' & Hc' & Hnl).
  - by apply elem_of_nil in Hc'.
  - cbn [result_map].
    apply _getDescendants_returns in Hv as (? & n & _ & Hn & [[Hc ->]|[Hc (vs' & _ & ->)]]).
    + cbn [describe]. rewrite (proj2 (getitem_Ok dic c n) Hn). cbn.
      rewrite IH; [done|]. exists c'. split; [|done].
      apply elem_of_cons in Hc' as [->|?]; [|done]. exfalso. apply Hnl. by exists n.
    + done.
Qed.

Lemma ranked_descendants_nested dic k n c fuel :
  dic !! k = Some n -> c ∈ children n -> ~ is_leaf dic c ->
  children_acyclic dic -> children_closed dic -> (size dic <= fuel)%nat ->
  getDescendantsWithRanksAndNames fuel dic [k] = raises TypeError.
Proof.
  intros Hk Hc Hnl Hacyclic Hclosed Hfuel.
  destruct (descents_return dic Hacyclic Hclosed fuel k n Hk Hfuel) as (v & _ & Hv & _).
  unfold getDescendantsWithRanksAndNames, run_batch. cbn [run_each]. rewrite Hv.
  cbn [mbind run_bind].
  apply _getDescendants_returns in Hv as (fuel' & n' & _ & Hn' & [[Hnil _]|[_ (vs & Hvs & ->)]]);
    simplify_eq.
  - rewrite Hnil in Hc. by apply elem_of_nil in Hc.
  - apply run_map_returns in Hvs.
    unfold returns. cbn [mbind run_bind lift describe_all result_map describe].
    rewrite (proj2 (getitem_Ok dic k _) Hk). cbn [mbind result_bind].
    rewrite (describe_children _ _ _ _ Hvs); [done|]. by exists c.
Qed.

(** C4 (the code departs from it). In the tree of the example, taxid 562 has
    no children and its preorder enumeration is [562]; [getDescendants([562])]
    and [getDescendantsWithRanksAndNames([562])] raise [TypeError] whatever
    the budget.  Taxid 543 has the enumeration [543, 561, 562];
    [getDescendants([543])] returns it and
    [getDescendantsWithRanksAndNames([543])] raises [TypeError]. *)
Theorem descendants_on_example (fuel : nat) :
  preorder ex_tree 562 [562]
  /\ getDescendants (S fuel) ex_tree [562] = raises TypeError
  /\ getDescendantsWithRanksAndNames (S fuel) ex_tree [562] = raises TypeError
  /\ preorder ex_tree 543 [543; 561; 562]
  /\ getDescendants 4 ex_tree [543] = returns {[543 := [543; 561; 562]]}
  /\ getDescendantsWithRanksAndNames 4 ex_tree [543] = raises TypeError.
Proof.
  assert (ex_tree !! 562 = Some (mkNode "Escherichia coli" (Some "species") (Some 561) []))
    as H562 by (vm_compute; reflexivity).
  assert (ex_tree !! 561 = Some (mkNode "Escherichia" (Some "genus") (Some 543) [562]))
    as H561 by (vm_compute; reflexivity).
  assert (ex_tree !! 543 = Some (mkNode "Enterobacteriaceae" (Some "family") (Some 1) [561]))
    as H543 by (vm_compute; reflexivity).
  assert (preorder ex_tree 562 [562]) as P562.
  { apply (preorder_node ex_tree 562 _ [] H562). constructor. }
  assert (preorder ex_tree 561 [561; 562]) as P561.
  { apply (preorder_node ex_tree 561 _ [[562]] H561). by repeat constructor. }
  destruct (queries_on_leaf ex_tree 562 _ fuel H562 eq_refl) as (_ & Hd & Hr).
  split; [done|]. split; [done|]. split; [done|]. split.
  - apply (preorder_node ex_tree 543 _ [[561; 562]] H543). by repeat constructor.
  - split; vm_compute; reflexivity.
Qed.

(** C5 (the code departs from it). In the tree of the example, taxid 562 has
    no children: [getLeaves(562)] returns [562], its sole leaf, and
    [getDescendants([562])], whose leaves the claim compares it with, raises
    [TypeError]. *)
Theorem leaves_on_example (fuel : nat) :
  is_leaf ex_tree 562
  /\ getLeaves (S fuel) ex_tree 562 = returns [562]
  /\ getDescendants (S fuel) ex_tree [562] = raises TypeError.
Proof.
  assert (ex_tree !! 562 = Some (mkNode "Escherichia coli" (Some "species") (Some 561) []))
    as H562 by (vm_compute; reflexivity).
  destruct (queries_on_leaf ex_tree 562 _ fuel H562 eq_refl) as (Hl & Hd & _).
  split; [by eexists|]. by split.
Qed.

(** ** Malformed lines *)

Lemma py_int_Raise f e : py_int f = Raise e -> e = ValueError f.
Proof.
  unfold py_int. cbv zeta. intros H.
  repeat case_match; by inv_result.
Qed.

Lemma is_foreign_not_space c : is_foreign c = true -> is_space c = false.
Proof.
  unfold is_foreign, is_space. cbv zeta.
  rewrite !andb_true_iff, !Nat.leb_le. intros [[[[[? ?] _] _] _] _].
  apply orb_false_iff. split.
  - apply Nat.eqb_neq. lia.
  - apply andb_false_iff. right. apply Nat.leb_gt. lia.
Qed.

Lemma is_foreign_not_digit c : is_foreign c = true -> is_digit c = false.
Proof.
  unfold is_foreign. cbv zeta. rewrite !andb_true_iff, negb_true_iff. tauto.
Qed.

Lemma lstrip_blank s : blank s = true -> lstrip s = EmptyString.
Proof.
  induction s as [|c r IH]; cbn; [done|].
  rewrite andb_true_iff. intros [-> ?]. auto.
Qed.

Lemma lstrip_foreign s : has_foreign s = true -> has_foreign (lstrip s) = true.
Proof.
  induction s as [|c r IH]; cbn; [done|].
  rewrite orb_true_iff. intros [Hc|Hr].
  - rewrite (is_foreign_not_space c Hc). cbn. by rewrite Hc.
  - destruct (is_space c); [by apply IH|]. cbn. rewrite Hr. apply orb_true_r.
Qed.

Lemma rstrip_foreign s : has_foreign s = true -> has_foreign (rstrip s) = true.
Proof.
  induction s as [|c r IH]; cbn [rstrip has_foreign]; [done|].
  rewrite orb_true_iff. intros [Hc|Hr].
  - destruct (rstrip r); [rewrite (is_foreign_not_space c Hc)|];
      cbn [has_foreign]; by rewrite Hc.
  - specialize (IH Hr). destruct (rstrip r) as [|c' r']; [done|].
    cbn [has_foreign] in *. rewrite IH. apply orb_true_r.
Qed.

Lemma digits_value_foreign s : forall acc, has_foreign s = true -> digits_value acc s = None.
Proof.
  induction s as [|c r IH]; intros acc; cbn [has_foreign digits_value]; [done|].
  rewrite orb_true_iff. intros [Hc|Hr].
  - by rewrite (is_foreign_not_digit c Hc).
  - destruct (is_digit c); [by apply IH|done].
Qed.

Lemma unsigned_literal_foreign s : has_foreign s = true -> unsigned_literal s = None.
Proof.
  intros H. unfold unsigned_literal. destruct s; [done|]. by apply digits_value_foreign.
Qed.

(** The model of [int] raises on a field that is not numeric. *)
Lemma not_numeric_py_int f : not_numeric f = true -> py_int f = Raise (ValueError f).
Proof.
  unfold not_numeric. rewrite orb_true_iff. intros [Hb|Hf]; unfold py_int; cbv zeta.
  - by rewrite (lstrip_blank f Hb).
  - pose proof (rstrip_foreign _ (lstrip_foreign f Hf)) as Ht.
    destruct (rstrip (lstrip f)) as [|c r] eqn:Et; [done|].
    destruct (Ascii.eqb c "-") eqn:Em.
    { apply Ascii.eqb_eq in Em as ->. cbn [has_foreign] in Ht.
      replace (is_foreign "-") with false in Ht by (vm_compute; reflexivity).
      cbn in Ht. by rewrite (unsigned_literal_foreign r Ht). }
    destruct (Ascii.eqb c "+") eqn:Ep.
    { apply Ascii.eqb_eq in Ep as ->. cbn [has_foreign] in Ht.
      replace (is_foreign "+") with false in Ht by (vm_compute; reflexivity).
      cbn in Ht. by rewrite (unsigned_literal_foreign r Ht). }
    by rewrite (unsigned_literal_foreign _ Ht).
Qed.

Lemma malformed_not_parsed line : malformed line -> parse_edge line = None.
Proof.
  unfold malformed, parse_edge.
  destruct (split "|" line) as [|f0 [|f1 [|f2 rest]]]; cbn; try done.
  intros [?|[(? & [= <-] & He)|(? & [= <-] & He)]]; [lia|..];
    rewrite (not_numeric_py_int _ He); [done|].
  by destruct (py_int f0).
Qed.

(** Whatever the state of the loop, the body raises on a malformed line. *)
Lemma nodes_step_malformed st line :
  malformed line ->
  exists e, nodes_step st line = Raise e
    /\ ((e = IndexError /\ (length (split "|" line) < 3)%nat)
        \/ (exists f, (nth_error (split "|" line) 0 = Some f
                       \/ nth_error (split "|" line) 1 = Some f)
                      /\ e = ValueError f)
        \/ (exists f0 k, nth_error (split "|" line) 0 = Some f0 /\ py_int f0 = Ok k
                         /\ e = KeyError k /\ st.1 !! k = None /\ st.2 !! k = None)).
Proof.
  intros Hbad. destruct st as [dic t2n]. unfold nodes_step, malformed in *.
  destruct (split "|" line) as [|f0 [|f1 [|f2 rest]]] eqn:Hsplit;
    cbn [take getitem_list nth_error mbind result_bind length fst snd] in *.
  - exists IndexError. split; [done|]. left. split; [done|lia].
  - destruct (py_int f0) as [a|e] eqn:H0; cbn.
    + exists IndexError. split; [done|]. left. split; [done|lia].
    + exists e. split; [done|]. right. left. exists f0. split; [by left|].
      by apply py_int_Raise.
  - destruct (py_int f0) as [a|e] eqn:H0; cbn.
    2:{ exists e. split; [done|]. right. left. exists f0. split; [by left|].
        by apply py_int_Raise. }
    destruct (py_int f1) as [p|e] eqn:H1; cbn.
    2:{ exists e. split; [done|]. right. left. exists f1. split; [by right|].
        by apply py_int_Raise. }
    destruct (dic !! a) eqn:Ha; cbn.
    { exists IndexError. split; [done|]. left. split; [done|lia]. }
    unfold getitem. destruct (t2n !! a) eqn:Hta; cbn.
    { exists IndexError. split; [done|]. left. split; [done|lia]. }
    exists (KeyError a). split; [done|]. right. right. by exists f0, a.
  - destruct Hbad as [?|[(? & [= <-] & He)|(? & [= <-] & He)]]; [lia|..].
    + rewrite (not_numeric_py_int _ He). cbn. exists (ValueError f0). split; [done|].
      right. left. exists f0. split; [by left|done].
    + destruct (py_int f0) as [a|e0] eqn:H0; cbn.
      2:{ exists e0. split; [done|]. right. left. exists f0. split; [by left|].
          by apply py_int_Raise. }
      rewrite (not_numeric_py_int _ He). cbn. exists (ValueError f1). split; [done|].
      right. left. exists f1. split; [by right|done].
Qed.

Lemma build_raises_at names_lines pre line post :
  (forall st, exists e, nodes_step st line = Raise e) ->
  exists e, build names_lines (pre ++ line :: post) = Raise e.
Proof.
  intros Hraise. unfold build.
  destruct (for_each names_step ∅ names_lines) as [names|e]; cbn; [|by eexists].
  rewrite for_each_app.
  destruct (for_each nodes_step (∅, names) pre) as [st|e]; cbn; [|by eexists].
  destruct (Hraise st) as [e ->]. cbn. by eexists.
Qed.

(** C9 (as stated, fails). A two-field line whose taxid is new and has no
    name aborts the build with [KeyError], the error of a missing name; a
    two-field line whose taxid has a name aborts it with [IndexError], and
    with the same [IndexError] whether it is the first line of the stream or
    the second: the exception says nothing about the line. *)
Lemma malformed_line_error_is_not_located :
  build ex_names [short_line_no_name] = Raise (KeyError 5)
  /\ build ex_names [short_line] = Raise IndexError
  /\ build ex_names [l1; short_line] = Raise IndexError.
Proof. repeat split; vm_compute; reflexivity. Qed.

(** C9 (amended). An edge line with fewer than three fields, or whose taxid
    or parent taxid field is not numeric (blank, or with a letter or another
    printable character that is no digit, sign or underscore), makes the loop
    body raise whatever the state: [IndexError] when a field is missing,
    [ValueError] with the taxid or parent taxid field of the line, or
    [KeyError] with the taxid that the first field of the line denotes, when
    that taxid is new and has no name.  A build over a stream that holds such
    a line raises an exception and yields no tree: the line is not skipped. *)
Theorem malformed_line_aborts (line : string) :
  malformed line ->
  (forall st, exists e,
      nodes_step st line = Raise e
      /\ ((e = IndexError /\ (length (split "|" line) < 3)%nat)
          \/ (exists f, (nth_error (split "|" line) 0 = Some f
                         \/ nth_error (split "|" line) 1 = Some f)
                        /\ e = ValueError f)
          \/ (exists f0 k, nth_error (split "|" line) 0 = Some f0 /\ py_int f0 = Ok k
                           /\ e = KeyError k /\ st.1 !! k = None /\ st.2 !! k = None)))
  /\ (forall names_lines pre post,
        exists e, build names_lines (pre ++ line :: post) = Raise e).
Proof.
  intros Hbad. split.
  - intros st. by apply nodes_step_malformed.
  - intros names_lines pre post. apply build_raises_at.
    intros st. destruct (nodes_step_malformed st line Hbad) as (e & He & _). by exists e.
Qed.

Lemma malformed_line_aborts_witness :
  ((forall st, exists e,
      nodes_step st short_line = Raise e
      /\ ((e = IndexError /\ (length (split "|" short_line) < 3)%nat)
          \/ (exists f, (nth_error (split "|" short_line) 0 = Some f
                         \/ nth_error (split "|" short_line) 1 = Some f)
                        /\ e = ValueError f)
          \/ (exists f0 k, nth_error (split "|" short_line) 0 = Some f0 /\ py_int f0 = Ok k
                           /\ e = KeyError k /\ st.1 !! k = None /\ st.2 !! k = None)))
   /\ (forall names_lines pre post,
         exists e, build names_lines (pre ++ short_line :: post) = Raise e))
  /\ ((forall st, exists e,
         nodes_step st letter_line = Raise e
         /\ ((e = IndexError /\ (length (split "|" letter_line) < 3)%nat)
             \/ (exists f, (nth_error (split "|" letter_line) 0 = Some f
                            \/ nth_error (split "|" letter_line) 1 = Some f)
                           /\ e = ValueError f)
             \/ (exists f0 k, nth_error (split "|" letter_line) 0 = Some f0
                              /\ py_int f0 = Ok k
                              /\ e = KeyError k /\ st.1 !! k = None /\ st.2 !! k = None)))
      /\ (forall names_lines pre post,
            exists e, build names_lines (pre ++ letter_line :: post) = Raise e)).
Proof.
  split.
  - apply (malformed_line_aborts short_line). left. vm_compute. lia.
  - apply (malformed_line_aborts letter_line). right. left.
    eexists. split; vm_compute; reflexivity.
Defined.

(** * Further properties of the constructor *)

(** ** Outcome of a build on well-formed files *)

Lemma add_edge_raises names rs st r e :
  loop_state names rs st -> add_edge st r = Raise e ->
  exists k, e = KeyError k /\ (k = e_id r \/ k = e_parent r) /\ names !! k = None.
Proof.
  destruct st as [dic t2n]. destruct r as [a p rk]. cbn [e_id e_parent e_rank].
  intros Hst. unfold add_edge. cbn [e_id e_parent e_rank].
  pose proof (Hst a) as Ha. pose proof (Hst p) as Hp. unfold node_facts in *. cbn [fst snd] in *.
  destruct (dic !! a) as [n|] eqn:Ea; cbn [mbind result_bind].
  - destruct (decide (p = a)) as [->|Hpa].
    + rewrite lookup_insert_eq. discriminate.
    + rewrite lookup_insert_ne by done.
      destruct (dic !! p) as [n'|] eqn:Ep; [discriminate|].
      destruct Hp as [(_ & _ & Htp)|(_ & _ & ? & _ & ?)]; [|done].
      unfold getitem. destruct (t2n !! p) as [nm|] eqn:Et; cbn; [discriminate|].
      intros ?; simplify_eq. exists p. split; [reflexivity|]. split; [by right|]. congruence.
  - destruct Ha as [(_ & _ & Hta)|(_ & _ & ? & _ & ?)]; [|done].
    destruct (t2n !! a) as [nm|] eqn:Et.
    2:{ rewrite (getitem_Raise t2n a Et). cbn [mbind result_bind].
        intros ?; simplify_eq. exists a. split; [reflexivity|]. split; [by left|]. congruence. }
    rewrite (proj2 (getitem_Ok t2n a nm) Et). cbn [mbind result_bind].
    destruct (decide (p = a)) as [->|Hpa].
    + rewrite lookup_insert_eq. discriminate.
    + rewrite lookup_insert_ne by done.
      destruct (dic !! p) as [n'|] eqn:Ep; [discriminate|].
      destruct Hp as [(_ & _ & Htp)|(_ & _ & ? & _ & ?)]; [|done].
      unfold getitem. rewrite lookup_delete_ne by done.
      destruct (t2n !! p) as [nm'|] eqn:Et'; cbn; [discriminate|].
      intros ?; simplify_eq. exists p. split; [reflexivity|]. split; [by right|]. congruence.
Qed.

Lemma for_each_nodes_raises names lines : forall rs rs0 st e,
  loop_state names rs0 st ->
  Forall2 (fun line r => parse_edge line = Some r) lines rs ->
  for_each nodes_step st lines = Raise e ->
  exists k, e = KeyError k /\ mentioned rs k /\ names !! k = None.
Proof.
  induction lines as [|line lines IH]; intros rs rs0 st e Hst Hparse Hrun.
  - discriminate.
  - inversion Hparse as [|? r ? rs' Hr Hrs']; subst. cbn [for_each] in Hrun.
    rewrite (nodes_step_parsed st line r Hr) in Hrun.
    destruct (add_edge st r) as [st1|e1] eqn:Hstep; cbn [mbind result_bind] in Hrun.
    + pose proof (add_edge_loop_state _ _ _ _ _ Hst Hstep) as Hst1.
      destruct (IH rs' (rs0 ++ [r]) st1 e Hst1 Hrs' Hrun) as (k & -> & Hm & Hn).
      exists k. split; [done|]. split; [|done].
      destruct Hm as [Hm|Hm]; [left|right]; cbn; by right.
    + injection Hrun as <-.
      destruct (add_edge_raises _ _ _ _ _ Hst Hstep) as (k & -> & Hk & Hn).
      exists k. split; [done|]. split; [|done].
      rewrite <- (app_nil_l (r :: rs')). change (r :: rs') with ([r] ++ rs').
      unfold mentioned. rewrite !fmap_app, !elem_of_app. cbn.
      destruct Hk as [-> | ->]; [left|right]; right; left; left.
Qed.

Lemma built_mentioned_named names rs st k :
  loop_state names rs st -> mentioned rs k -> is_Some (names !! k).
Proof.
  intros Hst Hk. destruct (Hst k) as [(Hn & _)|(_ & _ & nm & -> & _)]; [done|by eexists].
Qed.

Lemma list_remove_outcome x l :
  match list_remove x l with
  | Ok _ => x ∈ l
  | Raise e => e = ValueError "list.remove(x): x not in list" /\ x ∉ l
  end.
Proof.
  induction l as [|y l IH]; cbn.
  - split; [done|]. apply not_elem_of_nil.
  - case_decide as Hy; [subst; left|].
    destruct (list_remove x l); cbn.
    + by right.
    + destruct IH as [-> IH]. split; [done|]. rewrite not_elem_of_cons. by split.
Qed.

(** X1. When the names file is read without error and every line of the
    nodes file parses, the constructor completes exactly when every taxid of
    the nodes file has a scientific name and some record gives taxid 1 as its
    own parent. *)
Theorem build_completes_iff names_lines nodes_lines names :
  for_each names_step ∅ names_lines = Ok names ->
  Forall (fun line => is_Some (parse_edge line)) nodes_lines ->
  (exists dic, build names_lines nodes_lines = Ok dic)
  <-> (forall k, mentioned (edges_of nodes_lines) k -> is_Some (names !! k))
      /\ (exists r, r ∈ edges_of nodes_lines /\ e_id r = 1 /\ e_parent r = 1).
Proof.
  intros Hnames Hparse. split.
  - intros [dic Hbuild].
    destruct (build_Ok _ _ _ Hbuild)
      as (names' & dic0 & t2n & root & rc & Hnames' & _ & Hst & Hroot & Hrc & _).
    rewrite Hnames in Hnames'. injection Hnames' as <-. split.
    + intros k Hk. by eapply built_mentioned_named.
    + destruct (loop_state_lookup _ _ _ _ _ _ Hst Hroot) as (_ & _ & _ & Hch & _).
      rewrite Hch in Hrc. pose proof (list_remove_outcome 1 (children_of (edges_of nodes_lines) 1)) as Hin.
      rewrite Hrc in Hin. by apply children_of_elem in Hin.
  - intros [Hall (r & Hr & Hid & Hpar)].
    destruct (for_each_nodes_succeeds names nodes_lines (edges_of nodes_lines) [] (∅, names)
                (loop_state_init names) (parsed_edges_of _ Hparse) Hall)
      as ([dic0 t2n] & Hrun & Hst).
    cbn [app] in Hst.
    assert (1 ∈ children_of (edges_of nodes_lines) 1) as Hin
      by (apply children_of_elem; by exists r).
    destruct (Hst 1) as [(Hn & _)|(_ & _ & nm & _ & Hd)]; cbn [fst snd] in *.
    { exfalso. apply Hn. left. rewrite <- Hid. by apply list_elem_of_fmap_2. }
    pose proof (list_remove_outcome 1 (children_of (edges_of nodes_lines) 1)) as Hrm.
    destruct (list_remove 1 (children_of (edges_of nodes_lines) 1)) as [rc|e] eqn:Hrc.
    2:{ by destruct Hrm as [_ ?]. }
    eexists. unfold build. rewrite Hnames. cbn [mbind result_bind]. rewrite Hrun.
    cbn [mbind result_bind]. unfold finalize.
    rewrite (proj2 (getitem_Ok dic0 1 _) Hd). cbn [mbind result_bind children]. rewrite Hrc.
    reflexivity.
Qed.

Lemma build_completes_iff_witness :
  (exists dic, build ex_names [l561; l543; l562; l1] = Ok dic)
  <-> (forall k, mentioned (edges_of [l561; l543; l562; l1]) k ->
         is_Some ((list_to_map [(1, "root"); (543, "Enterobacteriaceae");
                                (561, "Escherichia"); (562, "Escherichia coli")]
                   : gmap Z string) !! k))
      /\ (exists r, r ∈ edges_of [l561; l543; l562; l1] /\ e_id r = 1 /\ e_parent r = 1).
Proof.
  apply (build_completes_iff ex_names [l561; l543; l562; l1]).
  - vm_compute. reflexivity.
  - refine (bool_decide_unpack _ _). vm_compute. exact I.
Defined.

(** X2. When the names file is read without error and every line of the
    nodes file parses, a build that does not complete raises [KeyError] with a
    taxid of the nodes file that has no scientific name, or [KeyError] with 1
    when no line mentions taxid 1 (an empty nodes file included), or the
    [ValueError] of [list.remove] when taxid 1 occurs but no record gives it as
    its own parent. *)
Theorem build_failure_kinds names_lines nodes_lines names e :
  for_each names_step ∅ names_lines = Ok names ->
  Forall (fun line => is_Some (parse_edge line)) nodes_lines ->
  build names_lines nodes_lines = Raise e ->
  (exists k, e = KeyError k /\ mentioned (edges_of nodes_lines) k /\ names !! k = None)
  \/ (e = KeyError 1 /\ ~ mentioned (edges_of nodes_lines) 1)
  \/ (e = ValueError "list.remove(x): x not in list"
      /\ mentioned (edges_of nodes_lines) 1
      /\ 1 ∉ children_of (edges_of nodes_lines) 1).
Proof.
  intros Hnames Hparse. unfold build. rewrite Hnames. cbn [mbind result_bind].
  pose proof (parsed_edges_of _ Hparse) as Hparse'.
  destruct (for_each nodes_step (∅, names) nodes_lines) as [[dic0 t2n]|e'] eqn:Hrun;
    cbn [mbind result_bind].
  - destruct (for_each_nodes_step names nodes_lines [] _ _ (loop_state_init names) Hrun)
      as (rs & Hrs & Hst).
    cbn [app] in Hst. rewrite <- (edges_of_parsed _ _ Hrs) in Hst.
    unfold finalize, getitem.
    destruct (Hst 1) as [(Hn & Hd & _)|(Hm & _ & nm & _ & Hd)]; cbn [fst snd] in *;
      rewrite Hd; cbn [mbind result_bind children].
    + intros [= <-]. right. left. by split.
    + pose proof (list_remove_outcome 1 (children_of (edges_of nodes_lines) 1)) as Hrm.
      destruct (list_remove 1 (children_of (edges_of nodes_lines) 1)); cbn; [discriminate|].
      intros [= <-]. destruct Hrm as [-> Hnot]. right. right. by split.
  - intros [= <-]. left.
    by apply (for_each_nodes_raises names nodes_lines _ [] (∅, names) e' (loop_state_init names)).
Qed.

Lemma build_failure_kinds_witness :
  (exists k, KeyError 1 = KeyError k /\ mentioned (edges_of []) k
             /\ (list_to_map [(1, "root"); (543, "Enterobacteriaceae");
                              (561, "Escherichia"); (562, "Escherichia coli")]
                 : gmap Z string) !! k = None)
  \/ (KeyError 1 = KeyError 1 /\ ~ mentioned (edges_of []) 1)
  \/ (KeyError 1 = ValueError "list.remove(x): x not in list"
      /\ mentioned (edges_of []) 1 /\ 1 ∉ children_of (edges_of []) 1).
Proof.
  apply (build_failure_kinds ex_names []).
  - vm_compute. reflexivity.
  - constructor.
  - vm_compute. reflexivity.
Defined.

(** ** What a built tree holds *)

(** X3. In a built tree the taxids are those the nodes file mentions.  Each
    node carries the scientific name of its taxid, the rank and the parent of
    the last record of its taxid (none when the taxid only occurs as a
    parent) and, as children, the taxids of the records that name it as
    parent, in file order.  The node of taxid 1 differs in two points: its
    parent is [None] and the first 1 is gone from its children. *)
Theorem built_tree_content names_lines nodes_lines names dic k :
  for_each names_step ∅ names_lines = Ok names ->
  build names_lines nodes_lines = Ok dic ->
  (is_Some (dic !! k) <-> mentioned (edges_of nodes_lines) k)
  /\ forall n, dic !! k = Some n ->
       names !! k = Some (name n)
       /\ rank n = e_rank <$> record_of (edges_of nodes_lines) k
       /\ (k <> 1 ->
           parent n = e_parent <$> record_of (edges_of nodes_lines) k
           /\ children n = children_of (edges_of nodes_lines) k)
       /\ (k = 1 ->
           parent n = None
           /\ list_remove 1 (children_of (edges_of nodes_lines) 1) = Ok (children n)).
Proof.
  intros Hnames Hbuild.
  destruct (build_Ok _ _ _ Hbuild)
    as (names' & dic0 & t2n & root & rc & Hnames' & _ & Hst & Hroot & Hrc & ->).
  rewrite Hnames in Hnames'. injection Hnames' as <-.
  destruct (loop_state_lookup _ _ _ _ _ _ Hst Hroot) as (Hm1 & Hrk1 & _ & Hch1 & Hnm1).
  destruct (decide (k = 1)) as [->|Hne].
  - rewrite lookup_insert_eq. split; [by split; [|eexists]|].
    intros n [= <-]. cbn. split; [done|]. split; [done|]. split; [done|].
    intros _. split; [done|]. by rewrite <- Hch1.
  - rewrite lookup_insert_ne by done. split.
    + split.
      * intros [n Hn]. by destruct (loop_state_lookup _ _ _ _ _ _ Hst Hn) as (? & _).
      * intros Hm. destruct (Hst k) as [(Hn & _)|(_ & _ & nm & _ & Hd)]; [done|]. by eexists.
    + intros n Hn.
      destruct (loop_state_lookup _ _ _ _ _ _ Hst Hn) as (_ & Hrk & Hpar & Hch & Hnm).
      split; [done|]. split; [done|]. split; [done|]. by intros ->.
Qed.

Lemma built_tree_content_witness :
  (is_Some (ex_tree !! 561) <-> mentioned (edges_of [l561; l543; l562; l1]) 561)
  /\ forall n, ex_tree !! 561 = Some n ->
       (list_to_map [(1, "root"); (543, "Enterobacteriaceae");
                     (561, "Escherichia"); (562, "Escherichia coli")] : gmap Z string) !! 561
       = Some (name n)
       /\ rank n = e_rank <$> record_of (edges_of [l561; l543; l562; l1]) 561
       /\ (561 <> 1 ->
           parent n = e_parent <$> record_of (edges_of [l561; l543; l562; l1]) 561
           /\ children n = children_of (edges_of [l561; l543; l562; l1]) 561)
       /\ (561 = 1 ->
           parent n = None
           /\ list_remove 1 (children_of (edges_of [l561; l543; l562; l1]) 1)
              = Ok (children n)).
Proof.
  apply (built_tree_content ex_names [l561; l543; l562; l1]).
  - vm_compute. reflexivity.
  - vm_compute. reflexivity.
Defined.

Lemma getChildren_singleton_inv dic p cs :
  getChildren dic [p] = Ok {[p := cs]} -> exists np, dic !! p = Some np /\ children np = cs.
Proof.
  unfold getChildren, batch. cbn [for_each]. unfold getitem.
  destruct (dic !! p) as [np|]; cbn; [|discriminate].
  rewrite insert_empty. intros H. exists np. split; [done|].
  assert (({[p := children np]} : gmap Z (list Z)) !! p = ({[p := cs]} : gmap Z (list Z)) !! p)
    as H' by congruence.
  rewrite !lookup_singleton_eq in H'. congruence.
Qed.

Lemma built_links_agree names_lines nodes_lines dic k c :
  build names_lines nodes_lines = Ok dic ->
  NoDup (e_id <$> edges_of nodes_lines) ->
  (forall r, r ∈ edges_of nodes_lines -> e_parent r ∈ (e_id <$> edges_of nodes_lines)) ->
  child_link dic k c <-> parent_link dic c k.
Proof.
  intros Hbuild Hunique Hclosed.
  pose proof (built_single_root _ _ _ Hbuild Hunique Hclosed) as (_ & _ & Hno1).
  split.
  - intros (nk & Hk & Hc).
    assert (c <> 1) as Hc1 by (intros ->; by apply (Hno1 k nk)).
    destruct (build_Ok _ _ _ Hbuild)
      as (names & dic0 & t2n & root & rc & _ & _ & Hst & Hroot & Hrc & ->).
    assert (c ∈ children_of (edges_of nodes_lines) k) as Hin.
    { destruct (decide (k = 1)) as [->|Hne].
      - rewrite lookup_insert_eq in Hk. simplify_eq. cbn in Hc.
        destruct (loop_state_lookup _ _ _ _ _ _ Hst Hroot) as (_ & _ & _ & Hch & _).
        apply list_remove_Ok in Hrc as (l1 & l2 & Hsplit & _ & ->).
        rewrite <- Hch, Hsplit. rewrite !elem_of_app in *. rewrite elem_of_cons. tauto.
      - rewrite lookup_insert_ne in Hk by done.
        destruct (loop_state_lookup _ _ _ _ _ _ Hst Hk) as (_ & _ & _ & Hch & _).
        by rewrite <- Hch. }
    apply children_of_elem in Hin as (r & Hr & Hid & Hpar).
    destruct (Hst c) as [(Hn & _)|(_ & _ & nm & _ & Hd)]; cbn [fst snd] in *.
    { exfalso. apply Hn. left. rewrite <- Hid. by apply list_elem_of_fmap_2. }
    eexists. split; [by rewrite lookup_insert_ne|]. cbn.
    rewrite (record_of_unique _ c r Hunique Hr Hid). cbn. by rewrite Hpar.
  - intros (nc & Hc & Hp).
    assert (c <> 1) as Hc1.
    { intros ->. destruct (built_single_root _ _ _ Hbuild Hunique Hclosed) as ((root & Hr & Hpr) & _).
      congruence. }
    destruct (built_round_trip _ _ _ Hbuild Hunique Hclosed c nc Hc Hc1)
      as (p & cs & Hp' & Hget & Hcount & _).
    assert (p = k) as -> by congruence.
    apply getChildren_singleton_inv in Hget as (nk & Hk & <-).
    exists nk. split; [done|].
    apply list_elem_of_In, (count_occ_In Z.eq_dec). lia.
Qed.

(** X4. In a tree built from a stream with one record per taxid and a record
    for every parent, child lists and parent fields tell the same story: [c]
    is in the child list of [k] exactly when the parent of [c] is [k]. *)
Theorem built_child_iff_parent names_lines nodes_lines dic k c :
  build names_lines nodes_lines = Ok dic ->
  NoDup (e_id <$> edges_of nodes_lines) ->
  (forall r, r ∈ edges_of nodes_lines -> e_parent r ∈ (e_id <$> edges_of nodes_lines)) ->
  child_link dic k c <-> parent_link dic c k.
Proof. apply built_links_agree. Qed.

Lemma built_child_iff_parent_witness :
  child_link ex_tree 543 561 <-> parent_link ex_tree 561 543.
Proof.
  apply (built_child_iff_parent ex_names [l561; l543; l562; l1] ex_tree 543 561).
  - vm_compute. reflexivity.
  - refine (bool_decide_unpack _ _). vm_compute. exact I.
  - apply Forall_forall. refine (bool_decide_unpack _ _). vm_compute. exact I.
Defined.

Lemma list_remove_filter x l l' :
  NoDup l -> list_remove x l = Ok l' -> l' = filter (fun y => y <> x) l.
Proof.
  intros Hnd (l1 & l2 & -> & Hn & ->)%list_remove_Ok.
  apply NoDup_app in Hnd as (_ & _ & Hnd2). apply NoDup_cons in Hnd2 as [Hx _].
  assert (forall l0 : list Z, x ∉ l0 -> filter (fun y => y <> x) l0 = l0) as Hid.
  { induction l0 as [|y l0 IH]; [done|]. intros [Hne Hl0]%not_elem_of_cons.
    rewrite filter_cons_True by done. by rewrite IH. }
  rewrite !filter_app, filter_cons_False by (by intros ?). by rewrite !Hid.
Qed.

Lemma filter_ne_id (x : Z) (l : list Z) : x ∉ l -> filter (fun y => y <> x) l = l.
Proof.
  induction l as [|y l IH]; [done|]. intros [Hne Hl]%not_elem_of_cons.
  rewrite filter_cons_True by done. by rewrite IH.
Qed.

Lemma build_any_order_root_apart names_lines lines lines' dic :
  build names_lines lines = Ok dic ->
  NoDup (e_id <$> edges_of lines) ->
  Forall (fun line => is_Some (parse_edge line)) lines' ->
  edges_of lines ≡ₚ edges_of lines' ->
  (forall k, filter (fun c => c <> 1) (children_of (edges_of lines) k)
             = filter (fun c => c <> 1) (children_of (edges_of lines') k)) ->
  build names_lines lines' = Ok dic.
Proof.
  intros Hbuild Hnd Hparse Hperm Hsiblings.
  destruct (build_Ok _ _ _ Hbuild)
    as (names & dic0 & t2n & root & rc & Hnames & _ & Hst & Hroot & Hrc & ->).
  assert (NoDup (e_id <$> edges_of lines')) as Hnd' by (by rewrite <- Hperm).
  pose proof (parsed_edges_of _ Hparse) as Hparse'.
  destruct (for_each_nodes_succeeds names lines' (edges_of lines') [] (∅, names)
              (loop_state_init names) Hparse') as ([dic0' t2n'] & Hrun' & Hst').
  { intros k Hk. cbn in Hk. apply (mentioned_Permutation _ _ k Hperm) in Hk.
    destruct (Hst k) as [(Hn & _)|(_ & _ & nm & -> & _)]; [done|by eexists]. }
  cbn [app] in Hst'.
  destruct (loop_state_lookup _ _ _ _ _ _ Hst Hroot) as (Hm1 & Hrk1 & _ & Hch1 & Hnm1).
  rewrite Hch1 in Hrc.
  (* the root record *)
  pose proof (list_remove_outcome 1 (children_of (edges_of lines) 1)) as Hin1.
  rewrite Hrc in Hin1. apply children_of_elem in Hin1 as (r1 & Hr1 & Hid1 & Hpar1).
  assert (forall rs k, NoDup (e_id <$> rs) -> r1 ∈ rs -> k <> 1 -> 1 ∉ children_of rs k) as Hno1.
  { intros rs k Hnd0 Hin Hk (r & Hr & Hid & Hpar)%children_of_elem.
    assert (r = r1) as -> by (apply (unique_record rs); [done..|congruence]). congruence. }
  assert (r1 ∈ edges_of lines') as Hr1' by (by rewrite <- Hperm).
  destruct (Hst' 1) as [(Hn & _)|(_ & _ & nm' & Hnm' & Hroot')]; cbn [fst snd] in *.
  { exfalso. apply Hn. left. rewrite <- Hid1. by apply list_elem_of_fmap_2. }
  pose proof (list_remove_outcome 1 (children_of (edges_of lines') 1)) as Hrm'.
  destruct (list_remove 1 (children_of (edges_of lines') 1)) as [rc'|e] eqn:Hrc'.
  2:{ destruct Hrm' as [_ Hnot]. exfalso. apply Hnot. apply children_of_elem. by exists r1. }
  unfold build. rewrite Hnames. cbn [mbind result_bind]. rewrite Hrun'. cbn [mbind result_bind].
  unfold finalize. rewrite (proj2 (getitem_Ok dic0' 1 _) Hroot'). cbn [mbind result_bind children].
  rewrite Hrc'. cbn [mbind result_bind name rank]. f_equal.
  apply map_eq. intros k. destruct (decide (k = 1)) as [->|Hk].
  - rewrite !lookup_insert_eq. f_equal.
    rewrite (list_remove_filter 1 _ rc (children_of_NoDup _ 1 Hnd) Hrc).
    rewrite (list_remove_filter 1 _ rc' (children_of_NoDup _ 1 Hnd') Hrc').
    rewrite (Hsiblings 1), Hrk1, (record_of_Permutation _ _ 1 Hperm Hnd).
    f_equal. congruence.
  - rewrite !lookup_insert_ne by done.
    assert (children_of (edges_of lines) k = children_of (edges_of lines') k) as Hch.
    { rewrite <- (filter_ne_id 1 (children_of (edges_of lines) k)) by (by apply Hno1).
      rewrite <- (filter_ne_id 1 (children_of (edges_of lines') k)) by (by apply Hno1).
      apply Hsiblings. }
    destruct (Hst k) as [(Hn & Hd & _)|(Hm & _ & nm & Hnm & Hd)];
      destruct (Hst' k) as [(Hn' & Hd' & _)|(Hm' & _ & nm2 & Hnm2 & Hd')]; cbn [fst snd] in *.
    + congruence.
    + exfalso. apply Hn. by apply (mentioned_Permutation _ _ k Hperm).
    + exfalso. apply Hn'. by apply (mentioned_Permutation _ _ k Hperm).
    + rewrite Hd, Hd', Hch, (record_of_Permutation _ _ k Hperm Hnd). congruence.
Qed.

(** X5. Feeding the records of a one-record-per-taxid stream in any other
    order builds the same tree, provided that the records sharing a parent
    keep their relative order; the record of taxid 1 may move freely. *)
Theorem build_order_insensitive names_lines lines lines' dic :
  build names_lines lines = Ok dic ->
  NoDup (e_id <$> edges_of lines) ->
  Forall (fun line => is_Some (parse_edge line)) lines' ->
  edges_of lines ≡ₚ edges_of lines' ->
  (forall k, filter (fun c => c <> 1) (children_of (edges_of lines) k)
             = filter (fun c => c <> 1) (children_of (edges_of lines') k)) ->
  build names_lines lines' = Ok dic.
Proof. apply build_any_order_root_apart. Qed.

(** X6. Whatever the stream, the parent of a node of a built tree and every
    entry of its child list are taxids of the tree: a lookup that follows a
    link of a built tree never raises [KeyError]. *)
Theorem built_tree_links_closed names_lines nodes_lines dic :
  build names_lines nodes_lines = Ok dic -> parents_closed dic /\ children_closed dic.
Proof. apply built_links_closed. Qed.

Lemma built_tree_links_closed_witness : parents_closed orphan_tree /\ children_closed orphan_tree.
Proof.
  apply (built_tree_links_closed three_names orphan_nodes orphan_tree).
  vm_compute. reflexivity.
Defined.

(** * Further properties of the ascendant walk *)

Lemma lineage_of_functional dic k l l' :
  lineage_of dic k l -> lineage_of dic k l' -> l = l'.
Proof.
  intros H. revert l'. induction H as [k n Hk Hp|k n p l Hk Hp Hl IH]; intros l' H';
    inversion H'; simplify_eq; [done|]. f_equal. by apply IH.
Qed.

Lemma lineage_of_entries dic k l :
  lineage_of dic k l ->
  forall e, e ∈ l ->
    rtc (parent_link dic) k (Lin.taxid e)
    /\ exists ne, dic !! Lin.taxid e = Some ne /\ e = entry (Lin.taxid e) ne.
Proof.
  induction 1 as [k n Hk Hp|k n p l Hk Hp Hl IH]; intros e He.
  - apply list_elem_of_singleton in He as ->. split; [constructor|]. by exists n.
  - apply elem_of_cons in He as [->|He].
    + split; [constructor|]. by exists n.
    + destruct (IH e He) as [Hr Hn]. split; [|done].
      eapply rtc_l; [|done]. by exists n.
Qed.

Lemma lineage_of_NoDup dic k l :
  parents_acyclic dic -> lineage_of dic k l -> NoDup (Lin.taxid <$> l).
Proof.
  intros Hacyclic. induction 1 as [k n Hk Hp|k n p l Hk Hp Hl IH]; cbn.
  - apply NoDup_singleton.
  - apply NoDup_cons. split; [|done].
    intros (e & He & Hin)%list_elem_of_fmap.
    destruct (lineage_of_entries _ _ _ Hl e Hin) as [Hr _].
    apply (Hacyclic k). eapply tc_rtc_r; [apply tc_once; by exists n|]. by rewrite He.
Qed.

Lemma lineage_of_links dic k l :
  lineage_of dic k l ->
  forall i a b, l !! i = Some a -> l !! S i = Some b ->
    parent_link dic (Lin.taxid a) (Lin.taxid b).
Proof.
  induction 1 as [k n Hk Hp|k n p l Hk Hp Hl IH]; intros i a b Ha Hb.
  - destruct i; cbn in *; [done|]. done.
  - destruct i as [|i]; cbn in Ha, Hb.
    + simplify_eq. cbn. exists n. split; [done|].
      destruct (lineage_of_head _ _ _ Hl) as (np & Hnp & Hhd).
      destruct l as [|x l]; cbn in *; simplify_eq. done.
    + by apply (IH i).
Qed.

(** X7. In a tree whose parent links have no cycle and stay inside the tree,
    the lineage of a node that has a parent is the node followed by the
    lineage of that parent. *)
Theorem lineage_of_child (dic : gmap Z Node) (id p : Z) (n : Node) (fuel : nat) :
  dic !! id = Some n -> parent n = Some p ->
  parents_acyclic dic -> parents_closed dic -> (size dic <= fuel)%nat ->
  exists l,
    getAscendantsWithRanksAndNames fuel dic [p] false = returns {[p := l]}
    /\ getAscendantsWithRanksAndNames fuel dic [id] false = returns {[id := entry id n :: l]}.
Proof.
  intros Hid Hp Hacyclic Hclosed Hfuel.
  destruct (Hclosed id p) as [np Hnp]; [by exists n|].
  destruct (getAscendants_one_closed dic Hacyclic fuel id n Hclosed Hid Hfuel) as (l & Hrun & Hl).
  destruct (getAscendants_one_closed dic Hacyclic fuel p np Hclosed Hnp Hfuel) as (lp & Hrunp & Hlp).
  assert (l = entry id n :: lp) as ->.
  { apply (lineage_of_functional dic id); [done|]. by eapply lineage_step. }
  exists lp. unfold getAscendantsWithRanksAndNames. split; by apply run_batch_singleton.
Qed.

Lemma lineage_of_child_witness :
  exists l,
    getAscendantsWithRanksAndNames 4 ex_tree [561] false = returns {[561 := l]}
    /\ getAscendantsWithRanksAndNames 4 ex_tree [562] false
       = returns {[562 := entry 562 (mkNode "Escherichia coli" (Some "species") (Some 561) [])
                          :: l]}.
Proof.
  apply (lineage_of_child ex_tree 562 561
           (mkNode "Escherichia coli" (Some "species") (Some 561) []) 4).
  - vm_compute. reflexivity.
  - reflexivity.
  - exact ex_tree_acyclic.
  - exact ex_tree_closed.
  - vm_compute. lia.
Defined.

(** X8. In such a tree the lineage of a node lists no taxid twice and is no
    longer than the tree has nodes; every entry carries the rank and name of
    the node of its taxid; and each entry is followed by the entry of its
    parent. *)
Theorem lineage_shape (dic : gmap Z Node) (id : Z) (n : Node) (fuel : nat) :
  dic !! id = Some n ->
  parents_acyclic dic -> parents_closed dic -> (size dic <= fuel)%nat ->
  exists l,
    getAscendantsWithRanksAndNames fuel dic [id] false = returns {[id := l]}
    /\ NoDup (Lin.taxid <$> l)
    /\ (length l <= size dic)%nat
    /\ (forall e, e ∈ l ->
          exists ne, dic !! Lin.taxid e = Some ne
                     /\ Lin.rank e = rank ne /\ Lin.name e = name ne)
    /\ (forall i a b, l !! i = Some a -> l !! S i = Some b ->
          exists na, dic !! Lin.taxid a = Some na /\ parent na = Some (Lin.taxid b)).
Proof.
  intros Hid Hacyclic Hclosed Hfuel.
  destruct (getAscendants_one_closed dic Hacyclic fuel id n Hclosed Hid Hfuel) as (l & Hrun & Hl).
  exists l. split; [unfold getAscendantsWithRanksAndNames; by apply run_batch_singleton|].
  pose proof (lineage_of_NoDup _ _ _ Hacyclic Hl) as Hnd.
  split; [done|]. split; [|split].
  - rewrite <- (length_fmap Lin.taxid), <- (size_list_to_set (C:=gset Z)) by done.
    rewrite <- size_dom. apply subseteq_size. intros t Ht.
    apply elem_of_list_to_set, list_elem_of_fmap in Ht as (e & -> & He).
    destruct (lineage_of_entries _ _ _ Hl e He) as (_ & ne & Hne & _).
    by apply elem_of_dom.
  - intros e He. destruct (lineage_of_entries _ _ _ Hl e He) as (_ & ne & Hne & Heq).
    exists ne. split; [done|]. by rewrite Heq.
  - intros i a b Ha Hb. exact (lineage_of_links _ _ _ Hl i a b Ha Hb).
Qed.

Lemma lineage_shape_witness :
  exists l,
    getAscendantsWithRanksAndNames 4 ex_tree [562] false = returns {[562 := l]}
    /\ NoDup (Lin.taxid <$> l)
    /\ (length l <= size ex_tree)%nat
    /\ (forall e, e ∈ l ->
          exists ne, ex_tree !! Lin.taxid e = Some ne
                     /\ Lin.rank e = rank ne /\ Lin.name e = name ne)
    /\ (forall i a b, l !! i = Some a -> l !! S i = Some b ->
          exists na, ex_tree !! Lin.taxid a = Some na /\ parent na = Some (Lin.taxid b)).
Proof.
  apply (lineage_shape ex_tree 562
           (mkNode "Escherichia coli" (Some "species") (Some 561) []) 4).
  - vm_compute. reflexivity.
  - exact ex_tree_acyclic.
  - exact ex_tree_closed.
  - vm_compute. lia.
Defined.

(** X9. In a tree built from a stream with one record per taxid and a record
    for every parent, whose parent links have no cycle, the ascendant walk
    from any node returns within as many loop tests as the tree has nodes,
    and the last entry of the lineage is taxid 1. *)
Theorem built_lineage_ends_at_root names_lines nodes_lines dic id n fuel :
  build names_lines nodes_lines = Ok dic ->
  NoDup (e_id <$> edges_of nodes_lines) ->
  (forall r, r ∈ edges_of nodes_lines -> e_parent r ∈ (e_id <$> edges_of nodes_lines)) ->
  parents_acyclic dic ->
  dic !! id = Some n -> (size dic <= fuel)%nat ->
  exists l root,
    getAscendantsWithRanksAndNames fuel dic [id] false = returns {[id := l]}
    /\ dic !! 1 = Some root
    /\ hd_error l = Some (entry id n)
    /\ last l = Some (entry 1 root).
Proof.
  intros Hbuild Hunique Hcontract Hacyclic Hid Hfuel.
  destruct (built_links_closed _ _ _ Hbuild) as [Hclosed _].
  destruct (built_single_root _ _ _ Hbuild Hunique Hcontract) as (_ & Honly & _).
  destruct (getAscendants_one_closed dic Hacyclic fuel id n Hclosed Hid Hfuel) as (l & Hrun & Hl).
  destruct (lineage_of_head _ _ _ Hl) as (n' & Hn' & Hhd).
  destruct (lineage_of_last _ _ _ Hl) as (r & nr & Hlast & Hr & Hpr).
  pose proof (Honly r nr Hr Hpr) as ->. simplify_eq.
  exists l, nr. split; [unfold getAscendantsWithRanksAndNames; by apply run_batch_singleton|].
  done.
Qed.

Lemma built_lineage_ends_at_root_witness :
  exists l root,
    getAscendantsWithRanksAndNames 4 ex_tree [562] false = returns {[562 := l]}
    /\ ex_tree !! 1 = Some root
    /\ hd_error l = Some (entry 562 (mkNode "Escherichia coli" (Some "species") (Some 561) []))
    /\ last l = Some (entry 1 root).
Proof.
  apply (built_lineage_ends_at_root ex_names [l561; l543; l562; l1] ex_tree 562
           (mkNode "Escherichia coli" (Some "species") (Some 561) []) 4).
  - vm_compute. reflexivity.
  - refine (bool_decide_unpack _ _). vm_compute. exact I.
  - apply Forall_forall. refine (bool_decide_unpack _ _). vm_compute. exact I.
  - exact ex_tree_acyclic.
  - vm_compute. reflexivity.
  - vm_compute. lia.
Defined.

(** * Further properties: the names file *)

Lemma names_step_cases t line :
  names_step t line =
  match split "|" line with
  | f0 :: f1 :: _ :: label :: _ =>
      if String.eqb label (tab +:+ "scientific name" +:+ tab) then
        match py_int f0 with
        | Ok taxid => Ok (<[taxid := slice_1_m1 f1]> t)
        | Raise e => Raise e
        end
      else Ok t
  | _ => Raise IndexError
  end.
Proof.
  unfold names_step.
  destruct (split "|" line) as [|f0 [|f1 [|f2 [|label rest]]]]; try reflexivity.
Qed.

Lemma names_loop lines : forall t t',
  for_each names_step t lines = Ok t' ->
  forall k, t' !! k = match last (filter (fun r => r.1 = k) (omap name_row lines)) with
                      | Some r => Some r.2
                      | None => t !! k
                      end.
Proof.
  induction lines as [|line lines IH]; intros t t' Hrun k; cbn [for_each] in Hrun.
  - by inv_result.
  - apply bind_Ok in Hrun as (t1 & Hstep & Hrun). specialize (IH _ _ Hrun k).
    rewrite names_step_cases in Hstep. cbn [omap list_omap]. unfold name_row at 1.
    destruct (split "|" line) as [|f0 [|f1 [|f2 [|label rest]]]]; try discriminate.
    destruct (String.eqb label _).
    + destruct (py_int f0) as [k0|]; [|discriminate]. inv_result.
      rewrite filter_cons. cbn [fst]. case_decide as Hk.
      * subst k0. rewrite last_cons.
        destruct (last (filter _ (omap name_row lines))); [done|].
        by rewrite IH, lookup_insert_eq.
      * rewrite IH. destruct (last (filter _ (omap name_row lines))); [done|].
        by rewrite lookup_insert_ne.
    + by inv_result.
Qed.

(** X10. After the names file is read without error, the name of a taxid is
    the one of its last scientific-name row; rows of any other name class
    leave no trace, and a taxid without scientific-name row has no name. *)
Theorem names_last_row_wins (names_lines : list string) (names : gmap Z string) (k : Z) :
  for_each names_step ∅ names_lines = Ok names ->
  names !! k = snd <$> last (filter (fun r => r.1 = k) (omap name_row names_lines)).
Proof.
  intros Hrun. rewrite (names_loop _ _ _ Hrun k).
  by destruct (last _).
Qed.

Lemma names_last_row_wins_witness :
  ({[ 1 := "Root" ]} : gmap Z string) !! 1
  = snd <$> last (filter (fun r => r.1 = 1) (omap name_row twice_named)).
Proof.
  apply (names_last_row_wins twice_named {[ 1 := "Root" ]} 1).
  vm_compute. reflexivity.
Defined.

(** X11. A line of the names file with fewer than four fields -- an empty
    line, for one -- raises [IndexError] whatever its name class, and a build
    whose names file holds such a line raises and yields no tree. *)
Theorem names_short_line_aborts (line : string) :
  (length (split "|" line) < 4)%nat ->
  (forall t, names_step t line = Raise IndexError)
  /\ (forall pre post nodes_lines,
        exists e, build (pre ++ line :: post) nodes_lines = Raise e
                  /\ (forall t, for_each names_step ∅ pre = Ok t -> e = IndexError)).
Proof.
  intros Hlen.
  assert (forall t, names_step t line = Raise IndexError) as Hstep.
  { intros t. rewrite names_step_cases.
    destruct (split "|" line) as [|f0 [|f1 [|f2 [|label rest]]]]; cbn in Hlen; try done. lia. }
  split; [done|]. intros pre post nodes_lines. unfold build. rewrite for_each_app.
  destruct (for_each names_step ∅ pre) as [t|e]; cbn [mbind result_bind].
  - cbn [for_each]. rewrite Hstep. cbn. by eexists.
  - eexists. split; [done|]. intros t. discriminate.
Qed.

Lemma names_short_line_aborts_witness :
  (forall t, names_step t "" = Raise IndexError)
  /\ (forall pre post nodes_lines,
        exists e, build (pre ++ "" :: post) nodes_lines = Raise e
                  /\ (forall t, for_each names_step ∅ pre = Ok t -> e = IndexError)).
Proof.
  apply (names_short_line_aborts "").
  vm_compute. lia.
Defined.

(** * Further properties of the descents *)

Lemma elem_of_concat_map {A : Type} (f : A -> list Z) (vs : list A) (d : Z) :
  d ∈ concat (map f vs) <-> exists v, v ∈ vs /\ d ∈ f v.
Proof.
  rewrite list_elem_of_In, in_concat. split.
  - intros (l & Hl & Hd). apply in_map_iff in Hl as (v & <- & Hv).
    exists v. by rewrite !list_elem_of_In.
  - intros (v & Hv & Hd). exists (f v). rewrite in_map_iff, <- list_elem_of_In.
    split; [|done]. exists v. by rewrite <- list_elem_of_In.
Qed.

Lemma Forall2_elem_l {A B : Type} (P : A -> B -> Prop) xs ys x :
  Forall2 P xs ys -> x ∈ xs -> exists y, y ∈ ys /\ P x y.
Proof.
  induction 1 as [|x' y' xs ys Hxy _ IH]; intros Hx.
  - by apply elem_of_nil in Hx.
  - apply elem_of_cons in Hx as [->|Hx].
    + exists y'. split; [left|done].
    + destruct (IH Hx) as (y & Hy & HP). exists y. split; [by right|done].
Qed.

Lemma Forall2_elem_r {A B : Type} (P : A -> B -> Prop) xs ys y :
  Forall2 P xs ys -> y ∈ ys -> exists x, x ∈ xs /\ P x y.
Proof.
  induction 1 as [|x' y' xs ys Hxy _ IH]; intros Hy.
  - by apply elem_of_nil in Hy.
  - apply elem_of_cons in Hy as [->|Hy].
    + exists x'. split; [left|done].
    + destruct (IH Hy) as (x & Hx & HP). exists x. split; [by right|done].
Qed.

Lemma leaf_reaches_itself dic k n d :
  dic !! k = Some n -> children n = [] -> rtc (child_link dic) k d -> d = k.
Proof.
  intros Hk Hc [->|(y & (n' & Hn' & Hy) & _)]%rtc_inv; [done|].
  simplify_eq. rewrite Hc in Hy. by apply elem_of_nil in Hy.
Qed.

(** What [_getDescendants] returns holds exactly the taxids that child links
    reach from the queried taxid. *)
Lemma _getDescendants_reach dic : forall fuel k v,
  _getDescendants fuel dic k = returns v ->
  forall d, d ∈ flatten_elt v <-> rtc (child_link dic) k d.
Proof.
  induction fuel as [|fuel IH]; intros k v Hrun d; [discriminate|].
  apply _getDescendants_returns in Hrun
    as (fuel' & n & [= <-] & Hn & [[Hc ->]|[Hc (vs & Hvs & ->)]]).
  - cbn [flatten_elt]. rewrite list_elem_of_singleton. split.
    + intros ->. constructor.
    + by apply (leaf_reaches_itself dic k n).
  - apply run_map_returns in Hvs.
    change (flatten_elt (PList (PInt k :: vs))) with (k :: concat (map flatten_elt vs)).
    rewrite elem_of_cons, elem_of_concat_map. split.
    + intros [->|(v' & Hv' & Hd)]; [constructor|].
      destruct (Forall2_elem_r _ _ _ _ Hvs Hv') as (c & Hcin & Hrun).
      eapply rtc_l; [by exists n|]. by apply (IH c v').
    + intros [->|(y & (n' & Hn' & Hy) & Hr)]%rtc_inv; [by left|]. simplify_eq.
      destruct (Forall2_elem_l _ _ _ _ Hvs Hy) as (v' & Hv' & Hrun).
      right. exists v'. split; [done|]. by apply (IH y v').
Qed.

(** What [_getLeaves] returns is not empty and holds exactly the reached
    taxids that have no children. *)
Lemma _getLeaves_reach dic : forall fuel k w,
  _getLeaves fuel dic k = returns w ->
  flatten_elt w <> []
  /\ forall d, d ∈ flatten_elt w <-> rtc (child_link dic) k d /\ is_leaf dic d.
Proof.
  induction fuel as [|fuel IH]; intros k w Hrun; [discriminate|].
  apply _getLeaves_returns in Hrun
    as (fuel' & n & [= <-] & Hn & [[Hc ->]|[Hc (ws & Hws & ->)]]).
  - cbn [flatten_elt]. split; [done|]. intros d. rewrite list_elem_of_singleton. split.
    + intros ->. split; [constructor|]. by exists n.
    + intros [Hr _]. by apply (leaf_reaches_itself dic k n).
  - apply run_map_returns in Hws. cbn [flatten_elt]. split.
    + destruct Hws as [|c w' cs ws' Hw' _]; [done|]. cbn.
      destruct (IH c w' Hw') as [Hne _]. by destruct (flatten_elt w').
    + intros d. rewrite elem_of_concat_map. split.
      * intros (w' & Hw' & Hd).
        destruct (Forall2_elem_r _ _ _ _ Hws Hw') as (c & Hcin & Hrun).
        destruct (IH c w' Hrun) as [_ Hiff]. destruct (proj1 (Hiff d) Hd) as [Hr Hl].
        split; [|done]. eapply rtc_l; [by exists n|done].
      * intros [[->|(y & (n' & Hn' & Hy) & Hr)]%rtc_inv Hl].
        { destruct Hl as (n' & Hn' & Hnil). by simplify_eq. }
        simplify_eq. destruct (Forall2_elem_l _ _ _ _ Hws Hy) as (w' & Hw' & Hrun).
        exists w'. split; [done|]. by apply (IH y w' Hrun).
Qed.

Lemma children_acyclic_by_depth dic (depth : Z -> nat) :
  map_Forall (fun k n => forallb (fun c => (depth k <? depth c)%nat) (children n) = true) dic ->
  children_acyclic dic.
Proof.
  intros Hall.
  assert (forall a b, tc (child_link dic) a b -> (depth a < depth b)%nat) as Hlt.
  { assert (forall a b, child_link dic a b -> (depth a < depth b)%nat) as Hstep.
    { intros a b (n & Hn & Hb). specialize (Hall a n Hn). cbn in Hall.
      rewrite forallb_forall in Hall. apply Nat.ltb_lt, Hall. by apply list_elem_of_In. }
    induction 1 as [a b H|a b c H _ IH].
    - by apply Hstep.
    - apply Hstep in H. lia. }
  intros a Ha. apply Hlt in Ha. lia.
Qed.

Lemma children_closed_by_lookup dic :
  map_Forall (fun k n => forallb (fun c => bool_decide (is_Some (dic !! c))) (children n)
                         = true) dic ->
  children_closed dic.
Proof.
  intros Hall a b (n & Hn & Hb). specialize (Hall a n Hn). cbn in Hall.
  rewrite forallb_forall in Hall. apply list_elem_of_In, Hall in Hb.
  by apply bool_decide_eq_true in Hb.
Qed.

Lemma ex_tree_children_acyclic : children_acyclic ex_tree.
Proof.
  apply (children_acyclic_by_depth ex_tree Z.to_nat).
  refine (bool_decide_unpack _ _). vm_compute. exact I.
Qed.

Lemma ex_tree_children_closed : children_closed ex_tree.
Proof. apply children_closed_by_lookup. refine (bool_decide_unpack _ _). vm_compute. exact I. Qed.

(** X12. For a taxid with children, in a tree whose child links have no
    cycle and stay inside the tree, [getDescendants] returns within a
    recursion depth of the number of nodes.  The list is the preorder
    enumeration of the subtree: it starts with the taxid itself and holds
    exactly the taxids reached from it through child lists; [getLeaves]
    returns those of its entries that have no children, in the same order. *)
Theorem descendants_of_inner_node (dic : gmap Z Node) (k : Z) (n : Node) (fuel : nat) :
  dic !! k = Some n -> children n <> [] ->
  children_acyclic dic -> children_closed dic -> (size dic <= fuel)%nat ->
  exists l,
    getDescendants fuel dic [k] = returns {[k := l]}
    /\ preorder dic k l
    /\ hd_error l = Some k
    /\ (forall d, d ∈ l <-> rtc (child_link dic) k d)
    /\ getLeaves fuel dic k = returns (filter (is_leaf dic) l).
Proof.
  intros Hk Hc Hacyclic Hclosed Hfuel.
  destruct (descents_return dic Hacyclic Hclosed fuel k n Hk Hfuel) as (v & w & Hv & Hw).
  pose proof (_getDescendants_preorder _ _ _ _ Hv) as Hpre.
  pose proof (_getLeaves_filter _ _ _ _ _ Hv Hw) as Hfilter.
  pose proof (_getDescendants_reach _ _ _ _ Hv) as Hreach.
  exists (flatten_elt v). split; [|split; [done|split; [by inversion Hpre|split; [done|]]]].
  - unfold getDescendants. apply run_batch_singleton. rewrite Hv. cbn [mbind run_bind].
    apply _getDescendants_returns in Hv as (? & n' & _ & Hn' & [[? _]|[_ (vs & _ & ->)]]);
      by simplify_eq.
  - unfold getLeaves. rewrite Hw. cbn [mbind run_bind]. rewrite <- Hfilter.
    apply _getLeaves_returns in Hw as (? & n' & _ & Hn' & [[? _]|[_ (ws & _ & ->)]]);
      by simplify_eq.
Qed.

Lemma descendants_of_inner_node_witness :
  exists l,
    getDescendants 4 ex_tree [543] = returns {[543 := l]}
    /\ preorder ex_tree 543 l
    /\ hd_error l = Some 543
    /\ (forall d, d ∈ l <-> rtc (child_link ex_tree) 543 d)
    /\ getLeaves 4 ex_tree 543 = returns (filter (is_leaf ex_tree) l).
Proof.
  apply (descendants_of_inner_node ex_tree 543
           (mkNode "Enterobacteriaceae" (Some "family") (Some 1) [561]) 4).
  - vm_compute. reflexivity.
  - discriminate.
  - exact ex_tree_children_acyclic.
  - exact ex_tree_children_closed.
  - vm_compute. lia.
Defined.

Lemma leaves_of_node_aux (dic : gmap Z Node) (k : Z) (n : Node) (fuel : nat) :
  dic !! k = Some n ->
  children_acyclic dic -> children_closed dic -> (size dic <= fuel)%nat ->
  exists ls,
    getLeaves fuel dic k = returns ls
    /\ ls <> []
    /\ (forall d, d ∈ ls <-> rtc (child_link dic) k d /\ is_leaf dic d).
Proof.
  intros Hk Hacyclic Hclosed Hfuel.
  destruct (descents_return dic Hacyclic Hclosed fuel k n Hk Hfuel) as (_ & w & _ & Hw).
  destruct (_getLeaves_reach dic fuel k w Hw) as [Hne Hiff].
  exists (flatten_elt w). split; [|split; [done|done]].
  unfold getLeaves. rewrite Hw. cbn [mbind run_bind]. by destruct w.
Qed.

(** X13. For any taxid of such a tree, with or without children, [getLeaves]
    returns a list that is never empty and holds exactly the taxids without
    children that child lists reach from the queried taxid. *)
Theorem leaves_of_node (dic : gmap Z Node) (k : Z) (n : Node) (fuel : nat) :
  dic !! k = Some n ->
  children_acyclic dic -> children_closed dic -> (size dic <= fuel)%nat ->
  exists ls,
    getLeaves fuel dic k = returns ls
    /\ ls <> []
    /\ (forall d, d ∈ ls <-> rtc (child_link dic) k d /\ is_leaf dic d)
    /\ (children n = [] -> ls = [k]).
Proof.
  intros Hk Hacyclic Hclosed Hfuel.
  destruct (descents_return dic Hacyclic Hclosed fuel k n Hk Hfuel) as (_ & w & _ & Hw).
  destruct (_getLeaves_reach dic fuel k w Hw) as [Hne Hiff].
  exists (flatten_elt w). split; [|split; [done|split; [done|]]].
  - unfold getLeaves. rewrite Hw. cbn [mbind run_bind].
    by destruct w.
  - intros Hc. apply _getLeaves_returns in Hw as (? & n' & _ & Hn' & [[_ ->]|[? _]]);
      by simplify_eq.
Qed.

Lemma leaves_of_node_witness :
  exists ls,
    getLeaves 4 ex_tree 1 = returns ls
    /\ ls <> []
    /\ (forall d, d ∈ ls <-> rtc (child_link ex_tree) 1 d /\ is_leaf ex_tree d)
    /\ (children (mkNode "root" (Some "no rank") None [543]) = [] -> ls = [1]).
Proof.
  apply (leaves_of_node ex_tree 1 (mkNode "root" (Some "no rank") None [543]) 4).
  - vm_compute. reflexivity.
  - exact ex_tree_children_acyclic.
  - exact ex_tree_children_closed.
  - vm_compute. lia.
Defined.

(** ** Descendants with ranks and names, leaves with ranks and names *)

Lemma _getDescendants_S fuel dic k :
  _getDescendants (S fuel) dic k
  = (n ← lift (getitem dic k);
     match children n with
     | [] => returns (PInt k)
     | _ :: _ =>
         result ← run_map (_getDescendants fuel dic) (children n);
         returns (PList (PInt k :: result))
     end).
Proof. reflexivity. Qed.

Lemma _getDescendants_leaf dic fuel c :
  is_leaf dic c -> _getDescendants (S fuel) dic c = returns (PInt c).
Proof.
  intros (nc & Hnc & Hnil). rewrite _getDescendants_S.
  rewrite (proj2 (getitem_Ok dic c nc) Hnc). cbn [mbind run_bind lift]. by rewrite Hnil.
Qed.

Lemma run_map_leaves dic fuel cs :
  Forall (is_leaf dic) cs ->
  run_map (_getDescendants (S fuel) dic) cs = returns (map PInt cs).
Proof.
  induction 1 as [|c cs Hc _ IH]; [done|].
  cbn [run_map map]. rewrite (_getDescendants_leaf dic fuel c Hc), IH. done.
Qed.

Lemma concat_map_PInt (zs : list Z) : concat (map flatten_elt (map PInt zs)) = zs.
Proof. induction zs as [|z zs IH]; cbn; [done|]. by rewrite IH. Qed.

Lemma result_map_entries dic (ls : list Z) :
  Forall (fun d => is_Some (dic !! d)) ls ->
  exists es,
    result_map (fun leaf => n ← getitem dic leaf; Ok (Lin.mk leaf (rank n) (name n))) ls = Ok es
    /\ Forall2 (fun d e => exists nd, dic !! d = Some nd /\ e = entry d nd) ls es.
Proof.
  induction 1 as [|d ls [nd Hnd] _ (es & Hes & Hall)].
  - exists []. split; [done|constructor].
  - exists (entry d nd :: es). cbn [result_map].
    rewrite (proj2 (getitem_Ok dic d nd) Hnd). cbn [mbind result_bind]. rewrite Hes.
    split; [done|]. constructor; [by exists nd|done].
Qed.

Lemma result_map_describe dic (cs : list Z) :
  result_map (describe dic) (map PInt cs)
  = result_map (fun leaf => n ← getitem dic leaf; Ok (Lin.mk leaf (rank n) (name n))) cs.
Proof. induction cs as [|c cs IH]; cbn; [done|]. by rewrite IH. Qed.

(** X14. For a taxid whose children all have no children,
    [getDescendantsWithRanksAndNames] returns the taxid and then its children,
    in child-list order, each with the rank and name of its node, and
    [getDescendants] returns the same taxids. *)
Theorem ranked_descendants_of_flat_node (dic : gmap Z Node) (k : Z) (n : Node) (fuel : nat) :
  dic !! k = Some n -> children n <> [] -> Forall (is_leaf dic) (children n) ->
  exists es,
    getDescendantsWithRanksAndNames (S (S fuel)) dic [k] = returns {[k := entry k n :: es]}
    /\ Forall2 (fun c e => exists nc, dic !! c = Some nc /\ e = entry c nc) (children n) es
    /\ getDescendants (S (S fuel)) dic [k] = returns {[k := k :: children n]}.
Proof.
  intros Hk Hc Hleaves.
  assert (_getDescendants (S (S fuel)) dic k = returns (PList (PInt k :: map PInt (children n))))
    as Hv.
  { rewrite _getDescendants_S, (proj2 (getitem_Ok dic k n) Hk). cbn [mbind run_bind lift].
    rewrite (run_map_leaves dic fuel (children n) Hleaves).
    by destruct (children n). }
  destruct (result_map_entries dic (children n)) as (es & Hes & Hall).
  { eapply Forall_impl; [exact Hleaves|]. intros c (nc & Hnc & _). by eexists. }
  exists es. split; [|split; [done|]].
  - unfold getDescendantsWithRanksAndNames. apply run_batch_singleton. rewrite Hv.
    unfold returns. cbn [mbind run_bind lift describe_all result_map describe].
    rewrite (proj2 (getitem_Ok dic k n) Hk). cbn [mbind result_bind].
    by rewrite result_map_describe, Hes.
  - unfold getDescendants. apply run_batch_singleton. rewrite Hv.
    unfold returns. cbn [mbind run_bind lift flatten map concat flatten_elt].
    by rewrite concat_map_PInt.
Qed.

Lemma ranked_descendants_of_flat_node_witness :
  exists es,
    getDescendantsWithRanksAndNames 2 ex_tree [561]
    = returns {[561 := entry 561 (mkNode "Escherichia" (Some "genus") (Some 543) [562]) :: es]}
    /\ Forall2 (fun c e => exists nc, ex_tree !! c = Some nc /\ e = entry c nc)
               (children (mkNode "Escherichia" (Some "genus") (Some 543) [562])) es
    /\ getDescendants 2 ex_tree [561]
       = returns {[561 := 561 :: children (mkNode "Escherichia" (Some "genus") (Some 543) [562])]}.
Proof.
  apply (ranked_descendants_of_flat_node ex_tree 561
           (mkNode "Escherichia" (Some "genus") (Some 543) [562]) 0).
  - vm_compute. reflexivity.
  - discriminate.
  - refine (bool_decide_unpack _ _). vm_compute. exact I.
Defined.

(** X15. For any taxid of a tree whose child links have no cycle and stay
    inside the tree, [getLeavesWithRanksAndNames] returns and gives, for each
    taxid of [getLeaves] in the same order, the taxid with the rank and name
    of its node: the lookups of the leaves never raise. *)
Theorem leaves_with_ranks_and_names (dic : gmap Z Node) (k : Z) (n : Node) (fuel : nat) :
  dic !! k = Some n ->
  children_acyclic dic -> children_closed dic -> (size dic <= fuel)%nat ->
  exists ls es,
    getLeaves fuel dic k = returns ls
    /\ getLeavesWithRanksAndNames fuel dic k = returns es
    /\ Forall2 (fun d e => exists nd, dic !! d = Some nd /\ children nd = []
                                      /\ e = entry d nd) ls es.
Proof.
  intros Hk Hacyclic Hclosed Hfuel.
  destruct (leaves_of_node_aux dic k n fuel Hk Hacyclic Hclosed Hfuel)
    as (ls & Hls & _ & Hiff).
  assert (Forall (is_leaf dic) ls) as Hleaves.
  { apply Forall_forall. intros d Hd. by apply Hiff in Hd as [_ ?]. }
  destruct (result_map_entries dic ls) as (es & Hes & Hall).
  { eapply Forall_impl; [exact Hleaves|]. intros c (nc & Hnc & _). by eexists. }
  exists ls, es. split; [done|]. split.
  - unfold getLeavesWithRanksAndNames. rewrite Hls. unfold returns. cbn [mbind run_bind lift].
    by rewrite Hes.
  - clear Hes Hls Hiff. induction Hall as [|d e ls es (nd & Hnd & ->) _ IH]; [constructor|].
    apply Forall_cons in Hleaves as [(nd' & Hnd' & Hnil) Hleaves].
    constructor; [|by apply IH]. exists nd'. by simplify_eq.
Qed.

Lemma leaves_with_ranks_and_names_witness :
  exists ls es,
    getLeaves 4 ex_tree 1 = returns ls
    /\ getLeavesWithRanksAndNames 4 ex_tree 1 = returns es
    /\ Forall2 (fun d e => exists nd, ex_tree !! d = Some nd /\ children nd = []
                                      /\ e = entry d nd) ls es.
Proof.
  apply (leaves_with_ranks_and_names ex_tree 1 (mkNode "root" (Some "no rank") None [543]) 4).
  - vm_compute. reflexivity.
  - exact ex_tree_children_acyclic.
  - exact ex_tree_children_closed.
  - vm_compute. lia.
Defined.

(** ** Taxids at a rank *)

(** X16. [getTaxidsAtRank(rank)] lists, each once, exactly the taxids of the
    tree whose node has that rank (with [None], the nodes that never got a
    record of their own), and [getRank] on the list returns that rank for
    every one of them. *)
Theorem taxids_at_rank (dic : gmap Z Node) (rk : option string) :
  NoDup (getTaxidsAtRank dic rk)
  /\ (forall k, k ∈ getTaxidsAtRank dic rk <-> exists n, dic !! k = Some n /\ rank n = rk)
  /\ exists m, getRank dic (getTaxidsAtRank dic rk) = Ok m
               /\ dom m = list_to_set (getTaxidsAtRank dic rk)
               /\ forall k, k ∈ getTaxidsAtRank dic rk -> m !! k = Some rk.
Proof.
  assert (forall k, k ∈ getTaxidsAtRank dic rk <-> exists n, dic !! k = Some n /\ rank n = rk)
    as Hmem.
  { intros k. unfold getTaxidsAtRank. rewrite list_elem_of_fmap. split.
    - intros ([k' n] & -> & [Hr Hin]%list_elem_of_filter).
      apply elem_of_map_to_list in Hin. by exists n.
    - intros (n & Hn & Hr). exists (k, n). split; [done|].
      apply list_elem_of_filter. split; [done|]. by apply elem_of_map_to_list. }
  split; [|split; [done|]].
  - unfold getTaxidsAtRank. apply (sublist_NoDup _ ((map_to_list dic).*1)).
    + apply NoDup_fst_map_to_list.
    + apply fmap_sublist, sublist_filter.
  - destruct (batch_field_Ok rank dic (getTaxidsAtRank dic rk)) as (m & Hm & _ & Hdom & Hval).
    { intros k (n & Hn & _)%Hmem. by eexists. }
    exists m. split; [done|]. split; [done|].
    intros k Hk. rewrite (Hval k Hk). apply Hmem in Hk as (n & -> & <-). done.
Qed.

(** ** [preorderTraversal] and [flatten] *)

Lemma run_map_ext {A B : Type} (f g : A -> run B) xs :
  (forall x, f x = g x) -> run_map f xs = run_map g xs.
Proof. intros H. induction xs as [|x xs IH]; cbn; [done|]. by rewrite H, IH. Qed.

Lemma run_map_then {A B C : Type} (f : A -> run B) (g : B -> C) xs :
  run_map (fun x => y ← f x; returns (g y)) xs = (ys ← run_map f xs; returns (map g ys)).
Proof.
  induction xs as [|x xs IH]; cbn [run_map]; [done|].
  destruct (f x) as [[y|e]|]; cbn [mbind run_bind]; [|done..].
  unfold returns at 1. cbn [mbind run_bind]. rewrite IH.
  by destruct (run_map f xs) as [[ys|e]|].
Qed.

Lemma _preorderTraversal_leaves_eq dic : forall fuel k,
  _preorderTraversal_leaves fuel dic k = (w ← _getLeaves fuel dic k; returns (of_pyval w)).
Proof.
  induction fuel as [|fuel IH]; intros k; [done|].
  cbn [_preorderTraversal_leaves _getLeaves].
  destruct (getitem dic k) as [n|e]; cbn [mbind run_bind lift]; [|done].
  destruct (children n) as [|c cs] eqn:Hc; [done|]. rewrite <- Hc.
  rewrite (run_map_ext _ _ _ IH), run_map_then.
  by destruct (run_map (_getLeaves fuel dic) (children n)) as [[ws|e]|].
Qed.

Lemma flatten_obj_elt_of_pyval (v : pyval) : flatten_obj_elt (of_pyval v) = flatten_elt v.
Proof.
  revert v. fix IH 1. intros [z|l]; cbn [of_pyval flatten_obj_elt flatten_elt]; [done|].
  f_equal. induction l as [|v l IHl]; cbn; [done|]. by rewrite IH, IHl.
Qed.

Lemma flatten_obj_of_pyval (v : pyval) : flatten_obj (of_pyval v) = flatten v.
Proof.
  destruct v as [z|l]; cbn [of_pyval flatten_obj flatten]; [done|].
  f_equal. f_equal. induction l as [|v l IHl]; cbn; [done|].
  by rewrite flatten_obj_elt_of_pyval, IHl.
Qed.

(** X17. With [only_leaves] set, [preorderTraversal] returns the nested value
    that the descent of [getLeaves] builds, so that handling its result the
    way [getLeaves] does -- a bare taxid wrapped in a list, anything else
    passed to [flatten] -- gives the outcome of [getLeaves], whatever that
    outcome is. *)
Theorem preorderTraversal_only_leaves (fuel : nat) (dic : gmap Z Node) (k : Z) :
  preorderTraversal fuel dic k true = (w ← _getLeaves fuel dic k; returns (of_pyval w))
  /\ (r ← preorderTraversal fuel dic k true;
      match r with
      | OInt z => returns [z]
      | _ => lift (flatten_obj r)
      end) = getLeaves fuel dic k.
Proof.
  unfold preorderTraversal. rewrite _preorderTraversal_leaves_eq. split; [done|].
  unfold getLeaves. destruct (_getLeaves fuel dic k) as [[w|e]|]; cbn [mbind run_bind]; [|done..].
  destruct w as [z|l]; [done|]. unfold returns, lift. cbn [mbind run_bind of_pyval].
  f_equal. exact (flatten_obj_of_pyval (PList l)).
Qed.

Lemma concat_map_Permutation {A B : Type} (f : A -> list Z) (g : B -> list Z) xs ys :
  Forall2 (fun x y => f x ≡ₚ g y) xs ys -> concat (map f xs) ≡ₚ concat (map g ys).
Proof. induction 1 as [|x y xs ys H _ IH]; cbn; [done|]. by rewrite H, IH. Qed.

(** The descent of [preorderTraversal] without [only_leaves] follows the one
    of [getDescendants], with every node after its subtrees. *)
Lemma _preorderTraversal_nodes_spec dic : forall fuel k v,
  _getDescendants fuel dic k = returns v ->
  exists o,
    _preorderTraversal_nodes fuel dic k = returns o
    /\ postorder dic k (flatten_obj_elt o)
    /\ flatten_obj_elt o ≡ₚ flatten_elt v
    /\ (forall vs, v = PList vs -> exists os, o = OTuple [OList os; OInt k]).
Proof.
  induction fuel as [|fuel IH]; intros k v Hrun; [discriminate|].
  apply _getDescendants_returns in Hrun
    as (fuel' & n & [= <-] & Hn & [[Hc ->]|[Hc (vs & Hvs & ->)]]).
  - exists (OInt k). cbn [_preorderTraversal_nodes].
    rewrite (proj2 (getitem_Ok dic k n) Hn). cbn [mbind run_bind lift]. rewrite Hc.
    split; [done|]. split; [|split; [done|discriminate]].
    change (flatten_obj_elt (OInt k)) with (concat [] ++ [k]).
    econstructor; [done|]. rewrite Hc. constructor.
  - apply run_map_returns in Hvs.
    assert (exists os,
              Forall2 (fun c o => _preorderTraversal_nodes fuel dic c = returns o) (children n) os
              /\ Forall2 (postorder dic) (children n) (map flatten_obj_elt os)
              /\ Forall2 (fun o v' => flatten_obj_elt o ≡ₚ flatten_elt v') os vs)
      as (os & Hos & Hpost & Hperm).
    { clear Hc. induction Hvs as [|c v' cs vs' Hv' _ (os & Hos & Hpost & Hperm)].
      - exists []. repeat split; constructor.
      - destruct (IH c v' Hv') as (o & Ho & Hpo & Hpe & _).
        exists (o :: os). repeat split; by constructor. }
    exists (OTuple [OList os; OInt k]). cbn [_preorderTraversal_nodes].
    rewrite (proj2 (getitem_Ok dic k n) Hn). cbn [mbind run_bind lift].
    apply run_map_returns in Hos. rewrite Hos.
    assert (flatten_obj_elt (OTuple [OList os; OInt k]) = concat (map flatten_obj_elt os) ++ [k])
      as -> by (cbn; by rewrite ?app_nil_r).
    split; [by destruct (children n)|]. split; [by econstructor|]. split.
    + change (flatten_elt (PList (PInt k :: vs))) with (k :: concat (map flatten_elt vs)).
      rewrite <- Permutation_cons_append. constructor. by apply concat_map_Permutation.
    + intros _ _. by exists os.
Qed.

(** X18. Without [only_leaves], on a taxid with children in a tree whose
    child links have no cycle and stay inside the tree, [preorderTraversal]
    returns the tuple of the list of its children's results and the taxid;
    flattened, it lists every node after the subtrees of its children -- the
    queried taxid last -- and holds the taxids of [getDescendants], each as
    many times, in another order. *)
Theorem preorderTraversal_all_nodes (dic : gmap Z Node) (k : Z) (n : Node) (fuel : nat) :
  dic !! k = Some n -> children n <> [] ->
  children_acyclic dic -> children_closed dic -> (size dic <= fuel)%nat ->
  exists os l ds,
    preorderTraversal fuel dic k false = returns (OTuple [OList os; OInt k])
    /\ flatten_obj (OTuple [OList os; OInt k]) = Ok l
    /\ postorder dic k l
    /\ last l = Some k
    /\ getDescendants fuel dic [k] = returns {[k := ds]}
    /\ l ≡ₚ ds.
Proof.
  intros Hk Hc Hacyclic Hclosed Hfuel.
  destruct (descents_return dic Hacyclic Hclosed fuel k n Hk Hfuel) as (v & _ & Hv & _).
  destruct (_preorderTraversal_nodes_spec dic fuel k v Hv) as (o & Ho & Hpost & Hperm & Hshape).
  assert (exists vs, v = PList vs) as [vs ->].
  { apply _getDescendants_returns in Hv as (? & n' & _ & Hn' & [[? _]|[_ (vs & _ & ->)]]);
      [by simplify_eq|by eexists]. }
  destruct (Hshape vs eq_refl) as [os ->].
  exists os, (flatten_obj_elt (OTuple [OList os; OInt k])), (flatten_elt (PList vs)).
  split; [done|]. split; [done|]. split; [done|]. split; [|split; [|done]].
  - cbn. rewrite ?app_nil_r. apply last_snoc.
  - unfold getDescendants. apply run_batch_singleton. by rewrite Hv.
Qed.

Lemma preorderTraversal_all_nodes_witness :
  exists os l ds,
    preorderTraversal 4 ex_tree 543 false = returns (OTuple [OList os; OInt 543])
    /\ flatten_obj (OTuple [OList os; OInt 543]) = Ok l
    /\ postorder ex_tree 543 l
    /\ last l = Some 543
    /\ getDescendants 4 ex_tree [543] = returns {[543 := ds]}
    /\ l ≡ₚ ds.
Proof.
  apply (preorderTraversal_all_nodes ex_tree 543
           (mkNode "Enterobacteriaceae" (Some "family") (Some 1) [561]) 4).
  - vm_compute. reflexivity.
  - discriminate.
  - exact ex_tree_children_acyclic.
  - exact ex_tree_children_closed.
  - vm_compute. lia.
Defined.

(** X19. [flatten] leaves a list of bare taxids as it is, and flattening the
    flattened list of any list changes nothing. *)
Theorem flatten_idempotent (l : list pyval) (zs : list Z) :
  flatten (PList (map PInt zs)) = Ok zs
  /\ exists fl, flatten (PList l) = Ok fl /\ flatten (PList (map PInt fl)) = Ok fl.
Proof.
  assert (forall zs', flatten (PList (map PInt zs')) = Ok zs') as Hflat.
  { intros zs'. cbn [flatten]. by rewrite concat_map_PInt. }
  split; [done|]. eexists. split; [reflexivity|]. apply Hflat.
Qed.

(** ** Descendants and ascendants of a built tree *)

Lemma tc_flip {A : Type} (R S : relation A) x y :
  (forall a b, R a b -> S b a) -> tc R x y -> tc S y x.
Proof.
  intros H. induction 1 as [x y Hxy|x y z Hxy _ IH].
  - apply tc_once. by apply H.
  - eapply tc_r; [exact IH|]. by apply H.
Qed.

Lemma rtc_flip {A : Type} (R S : relation A) x y :
  (forall a b, R a b -> S b a) -> rtc R x y -> rtc S y x.
Proof.
  intros H. induction 1 as [x|x y z Hxy _ IH].
  - constructor.
  - eapply rtc_r; [exact IH|]. by apply H.
Qed.

Lemma lineage_of_reach dic d x :
  rtc (parent_link dic) d x -> forall l, lineage_of dic d l -> x ∈ (Lin.taxid <$> l).
Proof.
  induction 1 as [d|d y x (n & Hn & Hp) _ IH]; intros l Hl.
  - destruct (lineage_of_head _ _ _ Hl) as (n & _ & Hhd).
    destruct l as [|e l]; cbn in Hhd; simplify_eq. cbn. left.
  - inversion Hl; simplify_eq. cbn. right. by apply IH.
Qed.

(** X20. In a tree built from a stream with one record per taxid and a
    record for every parent, whose parent links have no cycle, the two walks
    agree: a taxid is in [getDescendants([x])[x]] exactly when [x] is in its
    lineage. *)
Theorem built_descendant_iff_ancestor names_lines nodes_lines dic x d nx nd fuel :
  build names_lines nodes_lines = Ok dic ->
  NoDup (e_id <$> edges_of nodes_lines) ->
  (forall r, r ∈ edges_of nodes_lines -> e_parent r ∈ (e_id <$> edges_of nodes_lines)) ->
  parents_acyclic dic ->
  dic !! x = Some nx -> children nx <> [] -> dic !! d = Some nd ->
  (size dic <= fuel)%nat ->
  exists ds l,
    getDescendants fuel dic [x] = returns {[x := ds]}
    /\ getAscendantsWithRanksAndNames fuel dic [d] false = returns {[d := l]}
    /\ (d ∈ ds <-> x ∈ (Lin.taxid <$> l)).
Proof.
  intros Hbuild Hunique Hcontract Hacyclic Hx Hcx Hd Hfuel.
  pose proof (fun a b => built_links_agree _ _ _ a b Hbuild Hunique Hcontract) as Hagree.
  destruct (built_links_closed _ _ _ Hbuild) as [Hpclosed Hcclosed].
  assert (children_acyclic dic) as Hcacyclic.
  { intros a Ha. apply (Hacyclic a). eapply tc_flip; [|exact Ha].
    intros a' b'. apply Hagree. }
  destruct (descents_return dic Hcacyclic Hcclosed fuel x nx Hx Hfuel) as (v & _ & Hv & _).
  destruct (getAscendants_one_closed dic Hacyclic fuel d nd Hpclosed Hd Hfuel) as (l & Hrun & Hl).
  exists (flatten_elt v), l. split; [|split].
  - unfold getDescendants. apply run_batch_singleton. rewrite Hv. cbn [mbind run_bind].
    apply _getDescendants_returns in Hv as (? & n' & _ & Hn' & [[? _]|[_ (vs & _ & ->)]]);
      by simplify_eq.
  - unfold getAscendantsWithRanksAndNames. by apply run_batch_singleton.
  - rewrite (_getDescendants_reach dic fuel x v Hv d). split.
    + intros Hr. apply (lineage_of_reach dic d x); [|done].
      eapply rtc_flip; [|exact Hr]. intros a b. apply Hagree.
    + intros (e & -> & He)%list_elem_of_fmap.
      destruct (lineage_of_entries _ _ _ Hl e He) as [Hr _].
      eapply rtc_flip; [|exact Hr]. intros a b. apply Hagree.
Qed.

Lemma built_descendant_iff_ancestor_witness :
  exists ds l,
    getDescendants 4 ex_tree [543] = returns {[543 := ds]}
    /\ getAscendantsWithRanksAndNames 4 ex_tree [562] false = returns {[562 := l]}
    /\ (562 ∈ ds <-> 543 ∈ (Lin.taxid <$> l)).
Proof.
  apply (built_descendant_iff_ancestor ex_names [l561; l543; l562; l1] ex_tree 543 562
           (mkNode "Enterobacteriaceae" (Some "family") (Some 1) [561])
           (mkNode "Escherichia coli" (Some "species") (Some 561) []) 4).
  - vm_compute. reflexivity.
  - refine (bool_decide_unpack _ _). vm_compute. exact I.
  - apply Forall_forall. refine (bool_decide_unpack _ _). vm_compute. exact I.
  - exact ex_tree_acyclic.
  - vm_compute. reflexivity.
  - discriminate.
  - vm_compute. reflexivity.
  - vm_compute. lia.
Defined.

Lemma ex_same_siblings k :
  filter (fun c => c <> 1) (children_of (edges_of [l1; l543; l561; l562]) k)
  = filter (fun c => c <> 1) (children_of (edges_of [l561; l543; l562; l1]) k).
Proof.
  assert (edges_of [l1; l543; l561; l562]
          = [mkEdge 1 1 "no rank"; mkEdge 543 1 "family";
             mkEdge 561 543 "genus"; mkEdge 562 561 "species"]) as -> by (vm_compute; reflexivity).
  assert (edges_of [l561; l543; l562; l1]
          = [mkEdge 561 543 "genus"; mkEdge 543 1 "family";
             mkEdge 562 561 "species"; mkEdge 1 1 "no rank"]) as -> by (vm_compute; reflexivity).
  unfold children_of. rewrite !filter_cons, !filter_nil. cbn [e_parent e_id].
  repeat case_decide; try lia; vm_compute; reflexivity.
Qed.

Lemma build_order_insensitive_witness : build ex_names [l561; l543; l562; l1] = Ok ex_tree.
Proof.
  apply (build_order_insensitive ex_names [l1; l543; l561; l562] [l561; l543; l562; l1] ex_tree).
  - vm_compute. reflexivity.
  - refine (bool_decide_unpack _ _). vm_compute. exact I.
  - refine (bool_decide_unpack _ _). vm_compute. exact I.
  - refine (bool_decide_unpack _ _). vm_compute. exact I.
  - exact ex_same_siblings.
Defined.

(** * Duplicate taxids in the batch queries *)








